(** * ClientHunter: lead utilities and paginated places search

    A shallow embedding of [src/utils/leadUtils.js] (phone validation and
    formatting, lead scoring, lead filtering) and of the pagination callback
    of [src/hooks/usePlacesSearch.js], followed by the properties of the
    design document that concern them. *)

From Stdlib Require Import List Bool Arith ZArith QArith Lia.
From Stdlib Require Import Ascii String DecimalString.
From Stdlib Require Import Sorted Permutation.
Import ListNotations.
Close Scope Q_scope.

Set Implicit Arguments.

(** ** JavaScript strings and the regular expressions the source uses *)

Module Js.

(** A JavaScript string is a sequence of UTF-16 code units. *)
Definition char := N.
Definition jsstring := list char.

Definition code (a : ascii) : char := N_of_ascii a.

(** [lit "abc"] is the JavaScript string literal ['abc']. *)
Fixpoint lit (s : string) : jsstring :=
  match s with
  | EmptyString => []
  | String a s' => code a :: lit s'
  end.

Definition char_eqb (a b : char) : bool := N.eqb a b.

Fixpoint eqb (s t : jsstring) : bool :=
  match s, t with
  | [], [] => true
  | a :: s', b :: t' => char_eqb a b && eqb s' t'
  | _, _ => false
  end.

(** [\d]: the ten ASCII digits. *)
Definition is_digit (c : char) : bool := ((48 <=? c) && (c <=? 57))%N.

(** [\s]: WhiteSpace and LineTerminator code units of ECMAScript. *)
Definition is_space (c : char) : bool :=
  (((9 <=? c) && (c <=? 13)) || (c =? 32) || (c =? 160) || (c =? 5760)
   || ((8192 <=? c) && (c <=? 8202)) || (c =? 8232) || (c =? 8233)
   || (c =? 8239) || (c =? 8287) || (c =? 12288) || (c =? 65279))%N.

Definition is_char (a : ascii) (c : char) : bool := char_eqb c (code a).

(** The fragment of regular expressions that occurs in the source. *)
Inductive regex : Type :=
| Class (p : char -> bool)       (* one character of a class, or a literal *)
| Cat (r1 r2 : regex)            (* r1 r2 *)
| Opt (r : regex)                (* r? *)
| Times (n : nat) (r : regex).   (* r{n} *)

(** [rests r s]: what can remain of [s] after [r] has matched a prefix of
    it, in the order a backtracking matcher tries the alternatives. *)
Fixpoint rests (r : regex) (s : jsstring) : list jsstring :=
  match r with
  | Class p =>
      match s with
      | c :: t => if p c then [t] else []
      | [] => []
      end
  | Cat r1 r2 => flat_map (rests r2) (rests r1 s)
  | Opt r1 => rests r1 s ++ [s]
  | Times n r1 => Nat.iter n (flat_map (rests r1)) [s]
  end.

Definition is_empty (s : jsstring) : bool :=
  match s with [] => true | _ :: _ => false end.

(** [/^r$/.test(s)], without the multiline flag. *)
Definition test (r : regex) (s : jsstring) : bool :=
  existsb is_empty (rests r s).

(** The language of a regular expression: [power L n] is [n] consecutive
    words of [L]. *)
Fixpoint power (L : jsstring -> Prop) (n : nat) (w : jsstring) : Prop :=
  match n with
  | O => w = []
  | S k => exists u v, w = u ++ v /\ power L k u /\ L v
  end.

Fixpoint lang (r : regex) (w : jsstring) : Prop :=
  match r with
  | Class p => exists c, w = [c] /\ p c = true
  | Cat r1 r2 => exists u v, w = u ++ v /\ lang r1 u /\ lang r2 v
  | Opt r1 => w = [] \/ lang r1 w
  | Times n r1 => power (lang r1) n w
  end.

Definition splits (L : jsstring -> Prop) (s t : jsstring) : Prop :=
  exists w, s = w ++ t /\ L w.

(** [s.replace(/[cls]/g, '')] *)
Definition remove_all (cls : char -> bool) (s : jsstring) : jsstring :=
  filter (fun c => negb (cls c)) s.

(** [s.replace(/^c/, '')] for a literal character [c]. *)
Definition remove_leading (a : ascii) (s : jsstring) : jsstring :=
  match s with
  | c :: t => if is_char a c then t else s
  | [] => []
  end.

(** [s.startsWith(p)] *)
Fixpoint startsWith (s p : jsstring) {struct p} : bool :=
  match p, s with
  | [], _ => true
  | a :: p', c :: s' => char_eqb c a && startsWith s' p'
  | _ :: _, [] => false
  end.

(** [s.substring(n)] and [s.slice(n)] for [0 <= n]. *)
Definition substring (n : nat) (s : jsstring) : jsstring := skipn n s.

(** [s.slice(a, b)] for [0 <= a <= b]. *)
Definition slice (a b : nat) (s : jsstring) : jsstring :=
  firstn (b - a) (skipn a s).

(** Truthiness of a string-or-undefined value: [undefined] and [''] are
    falsy. *)
Definition truthy (v : option jsstring) : bool :=
  match v with
  | Some (_ :: _) => true
  | _ => false
  end.

(** [a || b] on string-or-undefined values. *)
Definition or (a b : option jsstring) : option jsstring :=
  if truthy a then a else b.

End Js.

Import Js.

(** ** leadUtils.js *)

Module LeadUtils.

Definition digit := Class is_digit.
Definition chr (a : ascii) := Class (is_char a).

(** [/[\s\-\(\)]/] *)
Definition separator (c : char) : bool :=
  is_space c || is_char "-" c || is_char "(" c || is_char ")" c.

(** [/^07\d{8}$/] *)
Definition pat_local : regex :=
  Cat (chr "0") (Cat (chr "7") (Times 8 digit)).
(** [/^\+947\d{8}$/] *)
Definition pat_plus : regex :=
  Cat (chr "+") (Cat (chr "9") (Cat (chr "4") (Cat (chr "7") (Times 8 digit)))).
(** [/^947\d{8}$/] *)
Definition pat_intl : regex :=
  Cat (chr "9") (Cat (chr "4") (Cat (chr "7") (Times 8 digit))).
(** [/^07\d{1}\s?\d{3}\s?\d{4}$/] *)
Definition pat_spaced : regex :=
  Cat (chr "0") (Cat (chr "7") (Cat (Times 1 digit)
    (Cat (Opt (Class is_space)) (Cat (Times 3 digit)
      (Cat (Opt (Class is_space)) (Times 4 digit)))))).

Definition mobilePatterns : list regex :=
  [pat_local; pat_plus; pat_intl; pat_spaced].

Definition isValidSriLankanMobile (phone : option jsstring) : bool :=
  match phone with
  | None | Some [] => false
  | Some p =>
      let cleanPhone := remove_all separator p in
      existsb (fun pattern => test pattern cleanPhone) mobilePatterns
  end.

(** [/[^\d+]/]: the characters [formatPhoneForWhatsApp] removes. *)
Definition not_digit_or_plus (c : char) : bool :=
  negb (is_digit c || is_char "+" c).

Definition formatPhoneForWhatsApp (phone : option jsstring) : jsstring :=
  match phone with
  | None | Some [] => []
  | Some p =>
      let cleanPhone := remove_all not_digit_or_plus p in
      let cleanPhone := remove_leading "+" cleanPhone in
      let cleanPhone :=
        if startsWith cleanPhone (lit "0")
        then lit "94" ++ substring 1 cleanPhone
        else cleanPhone in
      let cleanPhone :=
        if negb (startsWith cleanPhone (lit "94"))
        then lit "94" ++ cleanPhone
        else cleanPhone in
      cleanPhone
  end.

Definition formatPhoneForDisplay (phone : option jsstring) : jsstring :=
  match phone with
  | None | Some [] => lit "No phone"
  | Some p =>
      let cleanPhone := remove_all (fun c => negb (is_digit c)) p in
      if (List.length cleanPhone =? 10)%nat && startsWith cleanPhone (lit "0")
      then slice 0 3 cleanPhone ++ lit " " ++ slice 3 6 cleanPhone
           ++ lit " " ++ substring 6 cleanPhone
      else p
  end.

(** *** Lead scoring *)

Inductive LeadScore : Type := Hot | Warm | Cold.

(** [a > b] for a review count that may be [undefined]: the comparison
    with [undefined] goes through [NaN] and is false. *)
Definition count_gt (a : option Z) (b : Z) : bool :=
  match a with
  | Some x => (b <? x)%Z
  | None => false
  end.

(** [a > b] for a rating that may be [undefined].  A finite double is a
    rational and doubles compare exactly, so ratings are rationals. *)
Definition rating_gt (a : option Q) (b : Q) : bool :=
  match a with
  | Some x => negb (Qle_bool x b)
  | None => false
  end.

Definition calculateLeadScore (ratingCount : option Z) (rating : option Q)
  : LeadScore :=
  if count_gt ratingCount 100 && rating_gt rating (4 # 1)%Q then Hot
  else if count_gt ratingCount 50 then Warm
  else Cold.

(** *** Place records and leads *)

(** Photos and coordinates are objects the utilities never look into. *)
Definition ref := positive.

(** The object [getPlaceDetails] builds for a place.  [None] is an
    absent ([undefined]) field; review counts are integers. *)
Module Place.
Record t : Type := Build {
  id : option jsstring;
  placeId : option jsstring;
  displayName : option jsstring;
  rating : option Q;
  userRatingCount : option Z;
  nationalPhoneNumber : option jsstring;
  internationalPhoneNumber : option jsstring;
  websiteUri : option jsstring;
  businessStatus : option jsstring;
  photos : option (list ref);
  types : option (list jsstring);
  formattedAddress : option jsstring;
  location : option ref
}.
End Place.

(** The object the [map] callback builds: the fields of the place
    (the spread [...place]), then [leadScore] and [formattedWhatsapp]. *)
Module Lead.
Record t : Type := Build {
  id : option jsstring;
  placeId : option jsstring;
  displayName : option jsstring;
  rating : option Q;
  userRatingCount : option Z;
  nationalPhoneNumber : option jsstring;
  internationalPhoneNumber : option jsstring;
  websiteUri : option jsstring;
  businessStatus : option jsstring;
  photos : option (list ref);
  types : option (list jsstring);
  formattedAddress : option jsstring;
  location : option ref;
  leadScore : LeadScore;
  formattedWhatsapp : jsstring
}.
End Lead.

(** [v || 0] on a number-or-undefined value: [undefined] and [0] are
    falsy. *)
Definition or_zero (v : option Z) : Z :=
  match v with
  | Some n => if (n =? 0)%Z then 0%Z else n
  | None => 0%Z
  end.

(** [v !== s] for a string-or-undefined [v] and a string [s]. *)
Definition strict_neq (v : option jsstring) (s : jsstring) : bool :=
  match v with
  | Some t => negb (Js.eqb t s)
  | None => true
  end.

(** The callback of [places.filter]. *)
Definition suitable (place : Place.t) : bool :=
  let ratingCount := or_zero (Place.userRatingCount place) in
  if (ratingCount <? 10)%Z then false
  else if truthy (Place.websiteUri place) then false
  else if truthy (Place.businessStatus place)
          && strict_neq (Place.businessStatus place) (lit "OPERATIONAL")
       then false
  else
    let phone :=
      Js.or (Js.or (Place.nationalPhoneNumber place)
                   (Place.internationalPhoneNumber place))
            (Some []) in
    if negb (isValidSriLankanMobile phone) then false
    else true.

(** The callback of [.map]. *)
Definition enrich (place : Place.t) : Lead.t :=
  {| Lead.id := Place.id place;
     Lead.placeId := Place.placeId place;
     Lead.displayName := Place.displayName place;
     Lead.rating := Place.rating place;
     Lead.userRatingCount := Place.userRatingCount place;
     Lead.nationalPhoneNumber := Place.nationalPhoneNumber place;
     Lead.internationalPhoneNumber := Place.internationalPhoneNumber place;
     Lead.websiteUri := Place.websiteUri place;
     Lead.businessStatus := Place.businessStatus place;
     Lead.photos := Place.photos place;
     Lead.types := Place.types place;
     Lead.formattedAddress := Place.formattedAddress place;
     Lead.location := Place.location place;
     Lead.leadScore :=
       calculateLeadScore (Place.userRatingCount place) (Place.rating place);
     Lead.formattedWhatsapp :=
       formatPhoneForWhatsApp
         (Js.or (Place.nationalPhoneNumber place)
                (Place.internationalPhoneNumber place)) |}.

(** [b - a] on numbers that may be [undefined]; [None] is [NaN]. *)
Definition minus (b a : option Z) : option Z :=
  match b, a with
  | Some x, Some y => Some (x - y)%Z
  | _, _ => None
  end.

(** The comparator of [.sort]. *)
Definition byRatingCount (a b : Lead.t) : option Z :=
  minus (Lead.userRatingCount b) (Lead.userRatingCount a).

(** [Array.prototype.sort(comparefn)].  ECMAScript reads a [NaN] from the
    comparator as [+0] and requires the sort to be stable, which fixes the
    result for a consistent comparator; insertion is one such sort. *)
Section Sort.
Variable A : Type.
Variable comparefn : A -> A -> option Z.

Definition SortCompare (x y : A) : Z :=
  match comparefn x y with
  | Some v => v
  | None => 0%Z
  end.

Fixpoint insert (x : A) (l : list A) : list A :=
  match l with
  | [] => [x]
  | y :: l' =>
      if (SortCompare x y <=? 0)%Z then x :: l else y :: insert x l'
  end.

Definition sort (l : list A) : list A := fold_right insert [] l.
End Sort.

(** What a caller may pass as [places]. *)
Inductive Arg : Type :=
| Undefined
| Null
| Boolean (b : bool)
| Number (n : Z)
| Str (s : jsstring)
| Object (r : ref)                (* an object that is not an array *)
| Array (places : list Place.t).

(** [!places] *)
Definition falsy (places : Arg) : bool :=
  match places with
  | Undefined | Null => true
  | Boolean b => negb b
  | Number n => (n =? 0)%Z
  | Str s => is_empty s
  | Object _ | Array _ => false
  end.

Definition isArray (places : Arg) : bool :=
  match places with
  | Array _ => true
  | _ => false
  end.

Definition elements (places : Arg) : list Place.t :=
  match places with
  | Array l => l
  | _ => []
  end.

Definition filterSuitableLeads (places : Arg) : list Lead.t :=
  if falsy places || negb (isArray places) then []
  else sort byRatingCount (map enrich (filter suitable (elements places))).

End LeadUtils.

Import LeadUtils.

(** ** leadUtils.js on arbitrary arrays

    [filterSuitableLeads] once more, for an array that may hold anything: an
    element may be [null], [undefined], a primitive or an object, and the
    phone, website and status of an object may be any value.  Review counts
    and ratings stay numbers or absent.  A call ends by returning or by the
    [TypeError] of reading a property of [null] or [undefined], or of calling
    [replace] on a value that has no such method. *)

Module Loose.

Inductive Value : Type :=
| VUndefined
| VNull
| VBoolean (b : bool)
| VNumber (n : Z)
| VString (s : jsstring)
| VObject (r : ref).               (* an object without a [replace] method *)

Definition truthy (v : Value) : bool :=
  match v with
  | VUndefined | VNull => false
  | VBoolean b => b
  | VNumber n => negb (n =? 0)%Z
  | VString s => negb (is_empty s)
  | VObject _ => true
  end.

(** [a || b] *)
Definition or (a b : Value) : Value := if truthy a then a else b.

(** [v !== s] for a string [s]. *)
Definition strict_neq (v : Value) (s : jsstring) : bool :=
  match v with
  | VString t => negb (Js.eqb t s)
  | _ => true
  end.

Inductive Outcome (A : Type) : Type :=
| Returns (a : A)
| TypeError.
Arguments Returns {A} a.
Arguments TypeError {A}.

(** [isValidSriLankanMobile(phone)]: a falsy value is refused before
    [phone.replace] is called; a truthy value that is not a string has no
    [replace]. *)
Definition isValidSriLankanMobile (phone : Value) : Outcome bool :=
  if negb (truthy phone) then Returns false
  else match phone with
       | VString p => Returns (LeadUtils.isValidSriLankanMobile (Some p))
       | _ => TypeError
       end.

Definition formatPhoneForWhatsApp (phone : Value) : Outcome jsstring :=
  if negb (truthy phone) then Returns []
  else match phone with
       | VString p => Returns (LeadUtils.formatPhoneForWhatsApp (Some p))
       | _ => TypeError
       end.

(** The properties of an object that the function reads or copies. *)
Record Object : Type := {
  id : Value;
  placeId : Value;
  displayName : Value;
  rating : option Q;
  userRatingCount : option Z;
  nationalPhoneNumber : Value;
  internationalPhoneNumber : Value;
  websiteUri : Value;
  businessStatus : Value;
  photos : option (list ref);
  types : option (list jsstring);
  formattedAddress : Value;
  location : option ref
}.

(** An object with none of these properties. *)
Definition noProperties : Object :=
  {| id := VUndefined; placeId := VUndefined; displayName := VUndefined;
     rating := None; userRatingCount := None;
     nationalPhoneNumber := VUndefined; internationalPhoneNumber := VUndefined;
     websiteUri := VUndefined; businessStatus := VUndefined;
     photos := None; types := None;
     formattedAddress := VUndefined; location := None |}.

(** An element of the array. *)
Inductive Element : Type :=
| ElNull
| ElUndefined
| ElBoolean (b : bool)
| ElNumber (n : Z)
| ElString (s : jsstring)
| ElObject (o : Object).

(** Reading the properties of an element: a [TypeError] on [null] and
    [undefined]; none of the properties is there on a primitive. *)
Definition properties (place : Element) : Outcome Object :=
  match place with
  | ElNull | ElUndefined => TypeError
  | ElBoolean _ | ElNumber _ | ElString _ => Returns noProperties
  | ElObject o => Returns o
  end.

(** The callback of [places.filter]. *)
Definition suitable (place : Element) : Outcome bool :=
  match properties place with
  | TypeError => TypeError
  | Returns o =>
      let ratingCount := or_zero (userRatingCount o) in
      if (ratingCount <? 10)%Z then Returns false
      else if truthy (websiteUri o) then Returns false
      else if truthy (businessStatus o)
              && strict_neq (businessStatus o) (lit "OPERATIONAL")
           then Returns false
      else
        let phone :=
          or (or (nationalPhoneNumber o) (internationalPhoneNumber o))
             (VString []) in
        match isValidSriLankanMobile phone with
        | TypeError => TypeError
        | Returns valid => if negb valid then Returns false else Returns true
        end
  end.

(** [Array.prototype.filter] with a callback that may raise: the elements
    are visited in order and the first failure ends the call. *)
Fixpoint filter (l : list Element) : Outcome (list Element) :=
  match l with
  | [] => Returns []
  | place :: rest =>
      match suitable place with
      | TypeError => TypeError
      | Returns keep =>
          match filter rest with
          | TypeError => TypeError
          | Returns kept => Returns (if keep then place :: kept else kept)
          end
      end
  end.

(** The object the [map] callback builds. *)
Record Lead : Type := {
  lead_id : Value;
  lead_placeId : Value;
  lead_displayName : Value;
  lead_rating : option Q;
  lead_userRatingCount : option Z;
  lead_nationalPhoneNumber : Value;
  lead_internationalPhoneNumber : Value;
  lead_websiteUri : Value;
  lead_businessStatus : Value;
  lead_photos : option (list ref);
  lead_types : option (list jsstring);
  lead_formattedAddress : Value;
  lead_location : option ref;
  leadScore : LeadScore;
  formattedWhatsapp : jsstring
}.

(** The callback of [.map]. *)
Definition enrich (place : Element) : Outcome Lead :=
  match properties place with
  | TypeError => TypeError
  | Returns o =>
      match formatPhoneForWhatsApp
              (or (nationalPhoneNumber o) (internationalPhoneNumber o)) with
      | TypeError => TypeError
      | Returns whatsapp =>
          Returns
            {| lead_id := id o;
               lead_placeId := placeId o;
               lead_displayName := displayName o;
               lead_rating := rating o;
               lead_userRatingCount := userRatingCount o;
               lead_nationalPhoneNumber := nationalPhoneNumber o;
               lead_internationalPhoneNumber := internationalPhoneNumber o;
               lead_websiteUri := websiteUri o;
               lead_businessStatus := businessStatus o;
               lead_photos := photos o;
               lead_types := types o;
               lead_formattedAddress := formattedAddress o;
               lead_location := location o;
               leadScore := calculateLeadScore (userRatingCount o) (rating o);
               formattedWhatsapp := whatsapp |}
      end
  end.

(** [Array.prototype.map] with a callback that may raise. *)
Fixpoint map (l : list Element) : Outcome (list Lead) :=
  match l with
  | [] => Returns []
  | place :: rest =>
      match enrich place with
      | TypeError => TypeError
      | Returns lead =>
          match map rest with
          | TypeError => TypeError
          | Returns leads => Returns (lead :: leads)
          end
      end
  end.

(** The comparator of [.sort]. *)
Definition byRatingCount (a b : Lead) : option Z :=
  minus (lead_userRatingCount b) (lead_userRatingCount a).

(** What a caller may pass as [places]. *)
Inductive Arg : Type :=
| Undefined
| Null
| Boolean (b : bool)
| Number (n : Z)
| Str (s : jsstring)
| NonArray (r : ref)               (* an object that is not an array *)
| Array (places : list Element).

Definition falsy (places : Arg) : bool :=
  match places with
  | Undefined | Null => true
  | Boolean b => negb b
  | Number n => (n =? 0)%Z
  | Str s => is_empty s
  | NonArray _ | Array _ => false
  end.

Definition isArray (places : Arg) : bool :=
  match places with
  | Array _ => true
  | _ => false
  end.

Definition elements (places : Arg) : list Element :=
  match places with
  | Array l => l
  | _ => []
  end.

Definition filterSuitableLeads (places : Arg) : Outcome (list Lead) :=
  if falsy places || negb (isArray places) then Returns []
  else
    match filter (elements places) with
    | TypeError => TypeError
    | Returns kept =>
        match map kept with
        | TypeError => TypeError
        | Returns leads => Returns (sort byRatingCount leads)
        end
    end.

(** A place record and a lead of the typed functions, as objects. *)
Definition value (v : option jsstring) : Value :=
  match v with
  | Some s => VString s
  | None => VUndefined
  end.






End Loose.

(** ** usePlacesSearch.js: the pagination callback *)

Module PlacesSearch.

(** [google.maps.places.PlacesServiceStatus]: the two constants the
    source compares with, and every other status with its code. *)
Inductive PlacesServiceStatus : Type :=
| OK
| ZERO_RESULTS
| OtherStatus (code : jsstring).

(** The status as the template literal prints it. *)
Definition status_text (status : PlacesServiceStatus) : jsstring :=
  match status with
  | OK => lit "OK"
  | ZERO_RESULTS => lit "ZERO_RESULTS"
  | OtherStatus code => code
  end.

Record Error : Type := { message : jsstring }.

Record Pagination : Type := { hasNextPage : bool }.

Section FetchAllPages.
(** A search result; the hook only reads its [place_id]. *)
Variable Result : Type.

(** One call of the service to the callback. *)
Record Response : Type := {
  results : list Result;
  status : PlacesServiceStatus;
  pagination : option Pagination
}.

Inductive Promise : Type :=
| Pending
| Fulfilled (value : list Result)
| Rejected (reason : Error).

(** The closure of [fetchAllPages]: the array [allResults], the promise,
    and the number of two-second timers set so far. *)
Record State : Type := {
  allResults : list Result;
  promise : Promise;
  delays : nat
}.

(** [resolve] and [reject] settle a pending promise and are ignored
    afterwards. *)
Definition settle (p new : Promise) : Promise :=
  match p with
  | Pending => new
  | _ => p
  end.

(** Whether the callback asked for the next page. *)
Inductive Next : Type := NextPage (ms : nat) | Stop.

Definition handleResults (st : State) (r : Response) : State * Next :=
  match status r with
  | OK =>
      let all := allResults st ++ results r in
      match pagination r with
      | Some {| hasNextPage := true |} =>
          ({| allResults := all; promise := promise st;
              delays := S (delays st) |}, NextPage 2000)
      | _ =>
          ({| allResults := all;
              promise := settle (promise st) (Fulfilled all);
              delays := delays st |}, Stop)
      end
  | ZERO_RESULTS =>
      ({| allResults := allResults st;
          promise := settle (promise st) (Fulfilled (allResults st));
          delays := delays st |}, Stop)
  | _ =>
      ({| allResults := allResults st;
          promise :=
            settle (promise st)
              (Rejected
                 {| message :=
                      lit "Places API Error: " ++ status_text (status r) |});
          delays := delays st |}, Stop)
  end.

(** The service answers [textSearch] with its first response and every
    [nextPage()] with the following one; when it has none left the
    callback is not called again. *)
Fixpoint deliver (service : list Response) (st : State) : State :=
  match service with
  | [] => st
  | r :: rest =>
      match handleResults st r with
      | (st', NextPage _) => deliver rest st'
      | (st', Stop) => st'
      end
  end.

Definition initial : State :=
  {| allResults := []; promise := Pending; delays := 0 |}.

Definition fetchAllPages (service : list Response) : Promise :=
  promise (deliver service initial).
End FetchAllPages.

End PlacesSearch.

Import PlacesSearch.

(** ** Built-ins the remaining functions call *)

Module Builtins.

(** [s.trim()]: whitespace and line terminators removed at both ends. *)
Fixpoint trimStart (s : jsstring) : jsstring :=
  match s with
  | c :: t => if is_space c then trimStart t else s
  | [] => []
  end.

Definition trim (s : jsstring) : jsstring :=
  rev (trimStart (rev (trimStart s))).

(** [s.split(sep)] for a one-character separator. *)
Fixpoint split (sep : char) (s : jsstring) : list jsstring :=
  match s with
  | [] => [[]]
  | c :: t =>
      if char_eqb c sep then [] :: split sep t
      else match split sep t with
           | w :: ws => (c :: w) :: ws
           | [] => [[c]]
           end
  end.

(** [words.join(sep)] *)
Fixpoint join (sep : jsstring) (words : list jsstring) : jsstring :=
  match words with
  | [] => []
  | [w] => w
  | w :: rest => w ++ sep ++ join sep rest
  end.

(** [s.charAt(0)] *)
Definition charAt0 (s : jsstring) : jsstring := firstn 1 s.

(** A number in a template literal: its decimal digits. *)
Definition decimal (n : nat) : jsstring :=
  lit (NilZero.string_of_uint (Nat.to_uint n)).

(** A string-or-undefined value in a template literal. *)
Definition interpolate (v : option jsstring) : jsstring :=
  match v with
  | Some s => s
  | None => lit "undefined"
  end.

(** *** encodeURIComponent *)

Definition is_alpha (c : char) : bool :=
  (((65 <=? c) && (c <=? 90)) || ((97 <=? c) && (c <=? 122)))%N.

(** The marks [- _ . ! ~ * ' ( )] that are left as they are. *)
Definition is_mark (c : char) : bool :=
  is_char "-" c || is_char "_" c || is_char "." c || is_char "!" c
  || is_char "~" c || is_char "*" c || is_char "'" c || is_char "(" c
  || is_char ")" c.

Definition unreserved (c : char) : bool :=
  is_alpha c || is_digit c || is_mark c.

(** Leading surrogates are D800 to DBFF, trailing ones DC00 to DFFF. *)
Definition is_leading (c : char) : bool := ((55296 <=? c) && (c <=? 56319))%N.
Definition is_trailing (c : char) : bool := ((56320 <=? c) && (c <=? 57343))%N.

(** The code point of a surrogate pair. *)
Definition pair_point (hi lo : char) : N :=
  (65536 + (hi - 55296) * 1024 + (lo - 56320))%N.

(** The UTF-8 octets of a code point. *)
Definition utf8 (cp : N) : list N :=
  (if cp <? 128 then [cp]
   else if cp <? 2048 then [192 + cp / 64; 128 + cp mod 64]
   else if cp <? 65536 then
     [224 + cp / 4096; 128 + (cp / 64) mod 64; 128 + cp mod 64]
   else [240 + cp / 262144; 128 + (cp / 4096) mod 64;
         128 + (cp / 64) mod 64; 128 + cp mod 64])%N.

(** An upper-case hexadecimal digit. *)
Definition hex (n : N) : char := (if n <? 10 then 48 + n else 55 + n)%N.

(** [%XX] for an octet. *)
Definition escape (octet : N) : jsstring :=
  [code "%"; hex (octet / 16); hex (octet mod 16)].

(** [encodeURIComponent(s)]; [None] is the [URIError] raised at an unpaired
    surrogate. *)
Fixpoint encodeURIComponent (s : jsstring) : option jsstring :=
  match s with
  | [] => Some []
  | c :: t =>
      if unreserved c then option_map (cons c) (encodeURIComponent t)
      else if is_trailing c then None
      else if is_leading c then
        match t with
        | lo :: t' =>
            if is_trailing lo
            then option_map (app (flat_map escape (utf8 (pair_point c lo))))
                            (encodeURIComponent t')
            else None
        | [] => None
        end
      else option_map (app (flat_map escape (utf8 c))) (encodeURIComponent t)
  end.

End Builtins.

Import Builtins.

(** ** leadUtils.js: links, badges, categories and statuses *)

Module Outreach.

(** [getWhatsAppUrl(phone, message = '')]; [None] is the [URIError] of
    [encodeURIComponent]. *)
Definition getWhatsAppUrl (phone message : option jsstring)
  : option jsstring :=
  let message := match message with Some m => m | None => [] end in
  let formattedPhone := formatPhoneForWhatsApp phone in
  let baseUrl := lit "https://wa.me/" ++ formattedPhone in
  if truthy (Some message)
  then option_map (fun text => baseUrl ++ lit "?text=" ++ text)
                  (encodeURIComponent message)
  else Some baseUrl.

(** What [handleWhatsAppCommunication] does to the outside. *)
Inductive Effect : Type :=
| Fetch (path : jsstring)
| ClipboardWrite
| Log (text : jsstring)
| LogError (text : jsstring)
| Open (url target features : jsstring).

(** How the copy of the sample image goes: each awaited step ([fetch],
    [response.blob()], [navigator.clipboard.write]) succeeds, fails, or never
    settles. *)
Inductive Copy : Type :=
| FetchFails | FetchNever
| BlobFails | BlobNever
| WriteFails | WriteNever
| Copied.

(** A run of [handleWhatsAppCommunication]: building the link raised; or the
    function waits for ever at an [await], after the effects given; or it
    finished, with its effects in order. *)
Inductive Run : Type :=
| Raised
| Hangs (effects : list Effect)
| Finished (effects : list Effect).

Definition outreachMessage (businessName : option jsstring) : jsstring :=
  lit "Hi! I noticed " ++ interpolate businessName
  ++ lit " doesn't have a website yet. I run a web agency and would love to help you get online. Would you be interested in a quick chat?".

(** [handleWhatsAppCommunication(phone, businessName, category)].  The
    [finally] block runs once the [try] block has ended, by its end or by a
    failure caught; it is not reached while an [await] is pending. *)
Definition handleWhatsAppCommunication
    (phone businessName category : option jsstring) (copy : Copy) : Run :=
  let message := outreachMessage businessName in
  match getWhatsAppUrl phone (Some message) with
  | None => Raised
  | Some whatsappUrl =>
      let path := lit "/sample-images/" ++ interpolate category ++ lit ".png" in
      let failed :=
        LogError (lit "Copy failed, proceeding to WhatsApp without image:") in
      let open :=
        Open whatsappUrl (lit "_blank") (lit "noopener,noreferrer") in
      match copy with
      | FetchNever | BlobNever => Hangs [Fetch path]
      | WriteNever => Hangs [Fetch path; ClipboardWrite]
      | FetchFails | BlobFails => Finished [Fetch path; failed; open]
      | WriteFails => Finished [Fetch path; ClipboardWrite; failed; open]
      | Copied =>
          Finished [Fetch path; ClipboardWrite;
                    Log (lit "Image copied to clipboard!"); open]
      end
  end.

End Outreach.

Import Outreach.

Module Badges.

(** The string each tier is in the source. *)
Definition scoreString (score : LeadScore) : jsstring :=
  match score with
  | Hot => lit "Hot"
  | Warm => lit "Warm"
  | Cold => lit "Cold"
  end.

Record BadgeStyle : Type := {
  text : jsstring;
  bgColor : jsstring;
  textColor : jsstring;
  borderColor : jsstring;
  glow : bool
}.

(** [getLeadBadgeStyle(score)]; the two emoji are written as code units. *)
Definition getLeadBadgeStyle (score : option jsstring) : BadgeStyle :=
  match score with
  | Some s =>
      if Js.eqb s (lit "Hot") then
        {| text := [55357; 56613]%N ++ lit " HOT LEAD";
           bgColor := lit "bg-gradient-to-r from-amber-500 to-orange-500";
           textColor := lit "text-white";
           borderColor := lit "border-amber-400";
           glow := true |}
      else if Js.eqb s (lit "Warm") then
        {| text := [11088]%N ++ lit " Potential";
           bgColor := lit "bg-blue-600";
           textColor := lit "text-white";
           borderColor := lit "border-blue-400";
           glow := false |}
      else if Js.eqb s (lit "Cold") then
        {| text := lit "New Lead";
           bgColor := lit "bg-slate-600";
           textColor := lit "text-slate-200";
           borderColor := lit "border-slate-500";
           glow := false |}
      else
        {| text := lit "Unknown";
           bgColor := lit "bg-gray-600";
           textColor := lit "text-gray-200";
           borderColor := lit "border-gray-500";
           glow := false |}
  | None =>
      {| text := lit "Unknown";
         bgColor := lit "bg-gray-600";
         textColor := lit "text-gray-200";
         borderColor := lit "border-gray-500";
         glow := false |}
  end.

Record LeadStatus : Type := {
  value : jsstring;
  label : jsstring;
  color : jsstring
}.

Definition LEAD_STATUSES : list LeadStatus :=
  [ {| value := lit "New"; label := lit "New"; color := lit "bg-slate-500" |};
    {| value := lit "Qualified"; label := lit "Qualified";
       color := lit "bg-blue-500" |};
    {| value := lit "Contacted"; label := lit "Contacted";
       color := lit "bg-purple-500" |};
    {| value := lit "Interested"; label := lit "Interested";
       color := lit "bg-amber-500" |};
    {| value := lit "Closed"; label := lit "Closed";
       color := lit "bg-green-500" |} ].

(** [s.value === status] for a status that may be [undefined]. *)
Definition strict_eq (v : jsstring) (status : option jsstring) : bool :=
  match status with
  | Some s => Js.eqb v s
  | None => false
  end.

Definition getStatusColor (status : option jsstring) : jsstring :=
  match find (fun s => strict_eq (value s) status) LEAD_STATUSES with
  | Some statusObj => color statusObj
  | None => lit "bg-slate-500"
  end.

End Badges.

Import Badges.

Module Category.

Definition priorityTypes : list jsstring :=
  map lit
    [ "restaurant"; "cafe"; "bar"; "bakery"; "hotel"; "lodging";
      "beauty_salon"; "spa"; "gym"; "dentist"; "doctor"; "hospital";
      "car_repair"; "car_dealer"; "clothing_store"; "jewelry_store";
      "electronics_store"; "furniture_store"; "florist"; "pet_store" ]%string.

(** [list.includes(s)] *)
Definition includes (list : list jsstring) (s : jsstring) : bool :=
  existsb (Js.eqb s) list.

Section TitleCase.
(** [String.prototype.toUpperCase], of which only the ASCII behaviour is
    assumed where a property needs it. *)
Variable toUpperCase : jsstring -> jsstring.

(** [word.charAt(0).toUpperCase() + word.slice(1)] *)
Definition capitalize (word : jsstring) : jsstring :=
  toUpperCase (charAt0 word) ++ substring 1 word.

(** [type.split('_').map(...).join(' ')] *)
Definition titleCase (type : jsstring) : jsstring :=
  join (lit " ") (map capitalize (split (code "_") type)).

Definition getPrimaryCategory (types : option (list jsstring)) : jsstring :=
  match types with
  | None | Some [] => lit "Business"
  | Some (first :: rest) =>
      match find (includes priorityTypes) (first :: rest) with
      | Some primaryType =>
          if truthy (Some primaryType) then titleCase primaryType
          else titleCase first
      | None => titleCase first
      end
  end.
End TitleCase.

End Category.

Import Category.

(** ** LeadCard.jsx *)

Module LeadCard.

(** The link [handleTestWhatsApp] opens for the lead on the card. *)
Definition handleTestWhatsApp (place : Lead.t) : option jsstring :=
  getWhatsAppUrl (Lead.nationalPhoneNumber place) None.

(** The phone line of the card. *)
Definition phoneLine (place : Lead.t) : jsstring :=
  formatPhoneForDisplay (Lead.nationalPhoneNumber place).

End LeadCard.

(** ** usePlacesSearch.js: the hook *)

Module Hook.

(** A result of [textSearch]; the hook reads its [place_id] only. *)
Record SearchResult : Type := { place_id : option jsstring }.

Record Geometry : Type := { geometry_location : option ref }.

(** A place as [getDetails] answers it, with the requested fields. *)
Record Details : Type := {
  d_place_id : option jsstring;
  d_name : option jsstring;
  d_rating : option Q;
  d_user_ratings_total : option Z;
  d_formatted_phone_number : option jsstring;
  d_international_phone_number : option jsstring;
  d_website : option jsstring;
  d_business_status : option jsstring;
  d_photos : option (list ref);
  d_types : option (list jsstring);
  d_formatted_address : option jsstring;
  d_geometry : option Geometry
}.

(** The places service: the pages it answers [textSearch] and [nextPage]
    with, and for each place id what it passes to the callback of
    [getDetails], if it ever calls it. *)
Record Service : Type := {
  pages : list (Response SearchResult);
  details : option jsstring -> option (option Details * PlacesServiceStatus)
}.

(** An awaited promise: settled with a value, rejected, or never settled. *)
Inductive Awaited (A : Type) : Type :=
| Resolved (a : A)
| Thrown (e : Error)
| Never.
Arguments Resolved {A} a.
Arguments Thrown {A} e.
Arguments Never {A}.

(** [getPlaceDetails(service, placeId)]: the place in the hook's format, or
    [None] for the [null] of a failed lookup. *)
Definition getPlaceDetails (service : Service) (placeId : option jsstring)
  : Awaited (option Place.t) :=
  match details service placeId with
  | None => Never
  | Some (Some place, OK) =>
      Resolved (Some
        {| Place.id := d_place_id place;
           Place.placeId := d_place_id place;
           Place.displayName := d_name place;
           Place.rating := d_rating place;
           Place.userRatingCount := d_user_ratings_total place;
           Place.nationalPhoneNumber := d_formatted_phone_number place;
           Place.internationalPhoneNumber := d_international_phone_number place;
           Place.websiteUri := d_website place;
           Place.businessStatus := d_business_status place;
           Place.photos := d_photos place;
           Place.types := d_types place;
           Place.formattedAddress := d_formatted_address place;
           Place.location :=
             match d_geometry place with
             | Some g => geometry_location g
             | None => None
             end |})
  | Some _ => Resolved None
  end.

(** [Promise.all] of promises that do not reject: the values in order, or
    no value when one of them never settles. *)
Fixpoint all (A : Type) (promises : list (Awaited A)) : Awaited (list A) :=
  match promises with
  | [] => Resolved []
  | p :: rest =>
      match p, all rest with
      | Resolved a, Resolved l => Resolved (a :: l)
      | Thrown e, _ => Thrown e
      | _, Thrown e => Thrown e
      | _, _ => Never
      end
  end.

(** [detailedResults.filter(place => place !== null)] *)
Fixpoint nonNull (A : Type) (l : list (option A)) : list A :=
  match l with
  | [] => []
  | Some a :: rest => a :: nonNull rest
  | None :: rest => nonNull rest
  end.

(** The state of the hook. *)
Record State : Type := {
  results : list Lead.t;
  loading : bool;
  error : option jsstring;
  rawResultsCount : nat
}.

Definition setResults (v : list Lead.t) (st : State) : State :=
  {| results := v; loading := loading st; error := error st;
     rawResultsCount := rawResultsCount st |}.
Definition setLoading (v : bool) (st : State) : State :=
  {| results := results st; loading := v; error := error st;
     rawResultsCount := rawResultsCount st |}.
Definition setError (v : option jsstring) (st : State) : State :=
  {| results := results st; loading := loading st; error := v;
     rawResultsCount := rawResultsCount st |}.
Definition setRawResultsCount (v : nat) (st : State) : State :=
  {| results := results st; loading := loading st; error := error st;
     rawResultsCount := v |}.

(** [fetchAllPages] as the hook awaits it. *)
Definition awaitPages (service : Service) : Awaited (list SearchResult) :=
  match fetchAllPages (pages service) with
  | Pending _ => Never
  | Fulfilled value => Resolved value
  | Rejected _ reason => Thrown reason
  end.

(** The body of the [try] block up to its last statement, on the state
    the hook has when it is entered. *)
Definition trySearch (loaded : bool) (service : Service) (st : State)
  : Awaited State :=
  if negb loaded
  then Thrown
         {| message :=
              lit "Google Maps API not loaded. Please check your API key." |}
  else
    match awaitPages service with
    | Thrown e => Thrown e
    | Never => Never
    | Resolved allResults =>
        match all (map (fun place => getPlaceDetails service (place_id place))
                       allResults) with
        | Thrown e => Thrown e
        | Never => Never
        | Resolved detailedResults =>
            let validResults := nonNull detailedResults in
            let st := setRawResultsCount (List.length validResults) st in
            let filteredLeads := filterSuitableLeads (Array validResults) in
            let st := setResults filteredLeads st in
            if (List.length filteredLeads =? 0)%nat
               && (0 <? List.length validResults)%nat
            then Resolved
                   (setError
                      (Some (lit "Found " ++ decimal (List.length validResults)
                             ++ lit " businesses, but none match our criteria (no website, mobile phone, 10+ reviews)"))
                      st)
            else Resolved st
        end
    end.

(** [searchPlaces(query)]: the state the hook is left in.  [loaded] tells
    whether [window.google.maps.places] is there.  When a promise never
    settles the hook stays as it was when it started to wait. *)
Definition searchPlaces (loaded : bool) (service : Service)
    (query : jsstring) (st : State) : State :=
  if is_empty (trim query)
  then setError (Some (lit "Please enter a search query")) st
  else
    let st := setLoading true st in
    let st := setError None st in
    let st := setResults [] st in
    match trySearch loaded service st with
    | Resolved st' => setLoading false st'
    | Thrown err =>
        let text :=
          if is_empty (message err)
          then lit "An error occurred while searching"
          else message err in
        setLoading false (setError (Some text) st)
    | Never => st
    end.

Definition clearResults (st : State) : State :=
  setRawResultsCount 0 (setError None (setResults [] st)).

End Hook.

(** ** Vocabulary of the properties *)

Module Props.

(** The last two steps of [formatPhoneForWhatsApp], on the cleaned
    string: a leading [0] becomes [94], and [94] is put in front of
    anything that does not start with it. *)
Definition country_coded (cleanPhone : jsstring) : jsstring :=
  let cleanPhone :=
    if startsWith cleanPhone (lit "0")
    then lit "94" ++ substring 1 cleanPhone
    else cleanPhone in
  if negb (startsWith cleanPhone (lit "94"))
  then lit "94" ++ cleanPhone
  else cleanPhone.

Definition digit_or_plus (c : char) : bool := is_digit c || is_char "+" c.

(** What follows the first digit or plus of a string. *)
Fixpoint after_first_kept (s : jsstring) : jsstring :=
  match s with
  | [] => []
  | c :: t => if digit_or_plus c then t else after_first_kept t
  end.

(** No plus comes after the first digit or plus of the string. *)
Definition no_later_plus (raw : jsstring) : bool :=
  forallb (fun c => negb (is_char "+" c)) (after_first_kept raw).

(** The grouped form [formatPhoneForDisplay] builds from ten digits. *)
Definition grouped (cleanPhone : jsstring) : jsstring :=
  slice 0 3 cleanPhone ++ lit " " ++ slice 3 6 cleanPhone
  ++ lit " " ++ substring 6 cleanPhone.

(** The pattern [DDD DDD DDDD], as the expression [/^\d{3} \d{3} \d{4}$/]. *)
Definition pat_grouped : regex :=
  Cat (Times 3 digit) (Cat (chr " ") (Cat (Times 3 digit)
    (Cat (chr " ") (Times 4 digit)))).

(** The review count the filter compares with 10, of a place and of a
    lead. *)
Definition placeReviewCount (place : Place.t) : Z :=
  or_zero (Place.userRatingCount place).

Definition reviewCount (lead : Lead.t) : Z :=
  or_zero (Lead.userRatingCount lead).

(** The lead carries a review count, of at least 10. *)
Definition counted (lead : Lead.t) : Prop :=
  exists n, Lead.userRatingCount lead = Some n /\ (10 <= n)%Z.

(** Descending order of review counts. *)
Definition descending (a b : Lead.t) : Prop :=
  (reviewCount b <= reviewCount a)%Z.

(** The phone string both callbacks read:
    [place.nationalPhoneNumber || place.internationalPhoneNumber]. *)
Definition selectedPhone (place : Place.t) : option jsstring :=
  Js.or (Place.nationalPhoneNumber place)
        (Place.internationalPhoneNumber place).

(** The operating status does not exclude the place. *)
Definition statusAllows (place : Place.t) : bool :=
  negb (truthy (Place.businessStatus place)
        && strict_neq (Place.businessStatus place) (lit "OPERATIONAL")).

(** A place with enough reviews and no website, listed with a landline as
    its national number and a mobile as its international one. *)
Definition landline_first : Place.t :=
  {| Place.id := Some (lit "p1");
     Place.placeId := Some (lit "p1");
     Place.displayName := Some (lit "Corner Bakery");
     Place.rating := Some (9 # 2)%Q;
     Place.userRatingCount := Some 25%Z;
     Place.nationalPhoneNumber := Some (lit "011 234 5678");
     Place.internationalPhoneNumber := Some (lit "+94 77 123 4567");
     Place.websiteUri := None;
     Place.businessStatus := Some (lit "OPERATIONAL");
     Place.photos := None;
     Place.types := Some [lit "bakery"];
     Place.formattedAddress := Some (lit "12 Galle Road, Colombo");
     Place.location := None |}.

(** The same place when the listing has the mobile number only in its
    international form. *)
Definition international_only : Place.t :=
  {| Place.id := Some (lit "p1");
     Place.placeId := Some (lit "p1");
     Place.displayName := Some (lit "Corner Bakery");
     Place.rating := Some (9 # 2)%Q;
     Place.userRatingCount := Some 25%Z;
     Place.nationalPhoneNumber := None;
     Place.internationalPhoneNumber := Some (lit "+94 77 123 4567");
     Place.websiteUri := None;
     Place.businessStatus := Some (lit "OPERATIONAL");
     Place.photos := None;
     Place.types := Some [lit "bakery"];
     Place.formattedAddress := Some (lit "12 Galle Road, Colombo");
     Place.location := None |}.

(** A page that is followed by another one. *)
Definition has_next (Result : Type) (r : Response Result) : Prop :=
  status r = OK /\ pagination r = Some {| hasNextPage := true |}.

(** The tiers in ascending order. *)
Definition rank (score : LeadScore) : nat :=
  match score with
  | Cold => 0
  | Warm => 1
  | Hot => 2
  end.

(** A Cold lead is followed by Cold leads only. *)
Definition cold_last (a b : Lead.t) : Prop :=
  Lead.leadScore a = Cold -> Lead.leadScore b = Cold.

(** The characters [encodeURIComponent] can produce: the unreserved ones
    and the percent sign of an escape. *)
Definition url_safe (c : char) : bool := unreserved c || is_char "%" c.

(** A string of 16-bit code units. *)
Definition code_units (s : jsstring) : Prop := Forall (fun c => (c < 65536)%N) s.

(** Neither half of a surrogate pair. *)
Definition not_surrogate (c : char) : bool :=
  negb (is_leading c) && negb (is_trailing c).

(** Upper case on ASCII: [a] to [z] become [A] to [Z]. *)
Definition ascii_upper (c : char) : char :=
  (if (97 <=? c) && (c <=? 122) then c - 32 else c)%N.

(** What the properties of the category label assume of [toUpperCase]: the
    empty string stays empty and a single ASCII character is mapped as
    [ascii_upper] does. *)
Definition upper_on_ascii (toUpperCase : jsstring -> jsstring) : Prop :=
  toUpperCase [] = [] /\
  forall c, (c < 128)%N -> toUpperCase [c] = [ascii_upper c].

(** An upper-casing that satisfies it. *)
Definition asciiUpperCase (s : jsstring) : jsstring := map ascii_upper s.

Definition is_ascii (c : char) : bool := (c <? 128)%N.

(** The labels of the priority types, in the order of [priorityTypes]. *)
Definition priorityLabels : list jsstring :=
  map lit
    [ "Restaurant"; "Cafe"; "Bar"; "Bakery"; "Hotel"; "Lodging";
      "Beauty Salon"; "Spa"; "Gym"; "Dentist"; "Doctor"; "Hospital";
      "Car Repair"; "Car Dealer"; "Clothing Store"; "Jewelry Store";
      "Electronics Store"; "Furniture Store"; "Florist"; "Pet Store" ]%string.

Definition is_open (e : Effect) : bool :=
  match e with
  | Open _ _ _ => true
  | _ => false
  end.


(** The hook before any search. *)
Definition idle : Hook.State :=
  {| Hook.results := []; Hook.loading := false; Hook.error := None;
     Hook.rawResultsCount := 0 |}.

(** A service with one page of two results: the lookup of the first gives
    a bakery with a mobile number, the lookup of the second fails. *)
Definition bakery_details : Hook.Details :=
  {| Hook.d_place_id := Some (lit "a");
     Hook.d_name := Some (lit "Corner Bakery");
     Hook.d_rating := Some (9 # 2)%Q;
     Hook.d_user_ratings_total := Some 25%Z;
     Hook.d_formatted_phone_number := Some (lit "077 123 4567");
     Hook.d_international_phone_number := Some (lit "+94 77 123 4567");
     Hook.d_website := None;
     Hook.d_business_status := Some (lit "OPERATIONAL");
     Hook.d_photos := None;
     Hook.d_types := Some [lit "bakery"];
     Hook.d_formatted_address := Some (lit "12 Galle Road, Colombo");
     Hook.d_geometry := None |}.

Definition one_page_service : Hook.Service :=
  {| Hook.pages :=
       [ {| results := [ {| Hook.place_id := Some (lit "a") |};
                         {| Hook.place_id := Some (lit "b") |} ];
            status := OK;
            pagination := None |} ];
     Hook.details := fun placeId =>
       match placeId with
       | Some s =>
           if Js.eqb s (lit "a") then Some (Some bakery_details, OK)
           else Some (None, OtherStatus (lit "NOT_FOUND"))
       | None => Some (None, OtherStatus (lit "INVALID_REQUEST"))
       end |}.

(** A service whose second page is refused. *)
Definition refusing_service : Hook.Service :=
  {| Hook.pages :=
       [ {| results := [ {| Hook.place_id := Some (lit "a") |} ];
            status := OK;
            pagination := Some {| hasNextPage := true |} |};
         {| results := [];
            status := OtherStatus (lit "OVER_QUERY_LIMIT");
            pagination := None |} ];
     Hook.details := fun _ => Some (Some bakery_details, OK) |}.

(** A service that answers one page and then never calls back. *)
Definition silent_service : Hook.Service :=
  {| Hook.pages :=
       [ {| results := [ {| Hook.place_id := Some (lit "a") |} ];
            status := OK;
            pagination := Some {| hasNextPage := true |} |} ];
     Hook.details := fun _ => None |}.

(** Every awaited step of the copy settles, with success or failure. *)
Definition settles (copy : Copy) : bool :=
  match copy with
  | FetchNever | BlobNever | WriteNever => false
  | _ => true
  end.

(** The timers [fetchAllPages] sets while the service delivers its
    responses, each with its delay in milliseconds, in order. *)
Fixpoint timers (Result : Type) (service : list (Response Result))
    (st : State Result) : list nat :=
  match service with
  | [] => []
  | r :: rest =>
      match handleResults st r with
      | (st', NextPage ms) => ms :: timers rest st'
      | (_, Stop) => []
      end
  end.

End Props.

Import Props.

(** ** The matcher against the language of a regular expression *)

Section RegexLanguage.

Lemma iter_rests (r : regex) (n : nat) (s t : jsstring) :
  (forall s' t', In t' (rests r s') <-> splits (lang r) s' t') ->
  In t (Nat.iter n (flat_map (rests r)) [s]) <-> splits (power (lang r) n) s t.
Proof.
  intros IH. revert t. induction n as [|n IHn]; intros t; simpl.
  - split.
    + intros [<- | []]. now exists [].
    + intros (w & -> & ->). now left.
  - rewrite in_flat_map. split.
    + intros (m & Hm & Ht). apply IHn in Hm. apply IH in Ht.
      destruct Hm as (u & -> & Hu), Ht as (v & -> & Hv).
      exists (u ++ v). split; [now rewrite app_assoc|]. now exists u, v.
    + intros (w & -> & u & v & -> & Hu & Hv).
      exists (v ++ t). split.
      * apply IHn. exists u. split; [now rewrite app_assoc|assumption].
      * apply IH. now exists v.
Qed.

Lemma rests_spec (r : regex) :
  forall s t, In t (rests r s) <-> splits (lang r) s t.
Proof.
  induction r as [p | r1 IH1 r2 IH2 | r1 IH1 | n r1 IH1]; intros s t.
  - simpl. split.
    + destruct s as [|c s']; [intros []|].
      destruct (p c) eqn:Hp; [|intros []].
      intros [<- | []]. exists [c]. split; [reflexivity|]. now exists c.
    + intros (w & -> & c & -> & Hp). simpl. rewrite Hp. now left.
  - simpl. rewrite in_flat_map. split.
    + intros (m & Hm & Ht). apply IH1 in Hm. apply IH2 in Ht.
      destruct Hm as (u & -> & Hu), Ht as (v & -> & Hv).
      exists (u ++ v). split; [now rewrite app_assoc|]. now exists u, v.
    + intros (w & -> & u & v & -> & Hu & Hv).
      exists (v ++ t). split.
      * apply IH1. exists u. split; [now rewrite app_assoc|assumption].
      * apply IH2. now exists v.
  - simpl. rewrite in_app_iff. split.
    + intros [H | [<- | []]].
      * apply IH1 in H. destruct H as (w & -> & Hw). exists w. now split; [|right].
      * exists []. now split; [|left].
    + intros (w & -> & [-> | Hw]).
      * right. now left.
      * left. apply IH1. now exists w.
  - simpl. now apply iter_rests.
Qed.

(** [/^r$/.test(s)] holds exactly when [s] is a word of [r]. *)
Lemma test_spec (r : regex) (s : jsstring) :
  test r s = true <-> lang r s.
Proof.
  unfold test. rewrite existsb_exists. split.
  - intros (t & Ht & Hnil). destruct t; [|discriminate].
    apply rests_spec in Ht. destruct Ht as (w & -> & Hw).
    now rewrite app_nil_r.
  - intros H. exists []. split; [|reflexivity].
    apply rests_spec. exists s. now rewrite app_nil_r.
Qed.

Lemma power_class (p : char -> bool) (n : nat) (w : jsstring) :
  power (lang (Class p)) n w <-> List.length w = n /\ forallb p w = true.
Proof.
  revert w. induction n as [|n IH]; intros w; simpl.
  - split.
    + intros ->. now split.
    + intros [H _]. now destruct w.
  - split.
    + intros (u & v & -> & Hu & c & -> & Hc). apply IH in Hu.
      destruct Hu as [Hl Hf]. rewrite length_app, forallb_app, Hf. simpl.
      rewrite Hc. split; [lia|reflexivity].
    + intros [Hl Hf]. destruct (exists_last (l := w)) as (u & c & ->).
      { intros ->. discriminate. }
      rewrite length_app in Hl. rewrite forallb_app in Hf. simpl in Hl, Hf.
      apply andb_true_iff in Hf. destruct Hf as [Hu Hc].
      rewrite andb_true_r in Hc.
      exists u, [c]. split; [reflexivity|]. split.
      * apply IH. split; [lia|assumption].
      * now exists c.
Qed.

End RegexLanguage.

(** ** Character classes *)

Section Classes.

Lemma is_char_eq (a : ascii) (c : char) : is_char a c = true <-> c = code a.
Proof. unfold is_char, char_eqb. apply N.eqb_eq. Qed.

Lemma is_digit_range (c : char) :
  is_digit c = true <-> (48 <= c <= 57)%N.
Proof.
  unfold is_digit. rewrite andb_true_iff, !N.leb_le. reflexivity.
Qed.

Lemma is_space_cases (c : char) :
  is_space c = true ->
  (9 <= c <= 13 \/ c = 32 \/ c = 160 \/ 5760 <= c)%N.
Proof.
  unfold is_space.
  rewrite !orb_true_iff, !andb_true_iff, !N.leb_le, !N.eqb_eq. lia.
Qed.

Lemma separator_cases (c : char) :
  separator c = true ->
  (9 <= c <= 13 \/ c = 32 \/ c = 160 \/ 5760 <= c \/ c = 45 \/ c = 40
   \/ c = 41)%N.
Proof.
  unfold separator. rewrite !orb_true_iff, !is_char_eq.
  intros [[[H | ->] | ->] | ->]; [apply is_space_cases in H; lia | | |];
    [change (code "-") with 45%N | change (code "(") with 40%N
    | change (code ")") with 41%N]; lia.
Qed.

Lemma kept_digit_or_plus (c : char) :
  negb (not_digit_or_plus c) = true <-> is_digit c = true \/ c = code "+".
Proof.
  unfold not_digit_or_plus.
  rewrite negb_involutive, orb_true_iff, is_char_eq. reflexivity.
Qed.

Lemma plus_not_digit : is_digit (code "+") = false.
Proof. reflexivity. Qed.

(** A digit or a plus is none of the separators validation strips. *)
Lemma kept_not_separator (c : char) :
  negb (not_digit_or_plus c) = true -> negb (separator c) = true.
Proof.
  rewrite kept_digit_or_plus, is_digit_range. intros H.
  apply negb_true_iff, not_true_is_false. intros Hs.
  apply separator_cases in Hs.
  destruct H as [H | ->]; [lia|]. change (code "+") with 43%N in Hs. lia.
Qed.

Lemma digit_not_space (c : char) : is_digit c = true -> is_space c = false.
Proof.
  rewrite is_digit_range. intros H. apply not_true_is_false. intros Hs.
  apply is_space_cases in Hs. lia.
Qed.

End Classes.

(** ** Filters *)

Section Filters.
Variable A : Type.

Lemma filter_all (f : A -> bool) (l : list A) :
  forallb f l = true -> filter f l = l.
Proof.
  induction l as [|x l IH]; simpl; [reflexivity|].
  intros H. apply andb_true_iff in H. destruct H as [Hx Hl].
  now rewrite Hx, IH.
Qed.

Lemma forallb_filter_self (f : A -> bool) (l : list A) :
  forallb f (filter f l) = true.
Proof.
  apply forallb_forall. intros x Hx. now apply filter_In in Hx.
Qed.

(** Filtering by [f] sees through an earlier filter that [f] implies. *)
Lemma filter_through (f g : A -> bool) (l : list A) :
  (forall x, f x = true -> g x = true) ->
  filter f (filter g l) = filter f l.
Proof.
  intros Hfg. induction l as [|x l IH]; simpl; [reflexivity|].
  destruct (g x) eqn:Hg; simpl.
  - now rewrite IH.
  - destruct (f x) eqn:Hf; [|assumption].
    apply Hfg in Hf. congruence.
Qed.

Lemma forallb_impl (f g : A -> bool) (l : list A) :
  (forall x, f x = true -> g x = true) ->
  forallb f l = true -> forallb g l = true.
Proof.
  intros Hfg. rewrite !forallb_forall. auto.
Qed.
End Filters.

(** ** The shapes validation accepts *)

Section MobileShapes.

Lemma lang_chr (a : ascii) (r : regex) (w : jsstring) :
  lang (Cat (chr a) r) w <-> exists v, w = code a :: v /\ lang r v.
Proof.
  simpl. split.
  - intros (u & v & -> & (c & -> & Hc) & Hv).
    apply is_char_eq in Hc. subst c. now exists v.
  - intros (v & -> & Hv). exists [code a], v.
    split; [reflexivity|]. split; [|assumption].
    exists (code a). split; [reflexivity|]. now apply is_char_eq.
Qed.

Lemma lang_digits (n : nat) (w : jsstring) :
  lang (Times n digit) w <-> List.length w = n /\ forallb is_digit w = true.
Proof. apply power_class. Qed.

Lemma lang_digits_then (n : nat) (r : regex) (w : jsstring) :
  lang (Cat (Times n digit) r) w <->
  exists u v, w = u ++ v /\ List.length u = n /\ forallb is_digit u = true
              /\ lang r v.
Proof.
  change (lang (Cat (Times n digit) r) w)
    with (exists u v, w = u ++ v /\ lang (Times n digit) u /\ lang r v).
  split; intros (u & v & -> & Hu & Hv); exists u, v;
    (split; [reflexivity|]).
  - apply lang_digits in Hu. tauto.
  - split; [apply lang_digits|]; tauto.
Qed.

Lemma lang_opt_space (r : regex) (w : jsstring) :
  lang (Cat (Opt (Class is_space)) r) w ->
  lang r w \/ exists c v, w = c :: v /\ is_space c = true.
Proof.
  simpl. intros (u & v & -> & [-> | (c & -> & Hc)] & Hv).
  - now left.
  - right. now exists c, v.
Qed.

(** What is left of an accepted number once the separators are gone:
    [07], [+947] or [947], then eight digits. *)
Lemma valid_shape (p : jsstring) :
  isValidSriLankanMobile (Some p) = true ->
  exists ds, List.length ds = 8 /\ forallb is_digit ds = true /\
    (remove_all separator p = lit "07" ++ ds
     \/ remove_all separator p = lit "+947" ++ ds
     \/ remove_all separator p = lit "947" ++ ds).
Proof.
  destruct p as [|c0 p0]; [discriminate|].
  unfold isValidSriLankanMobile.
  set (cl := remove_all separator (c0 :: p0)).
  assert (Hsep : forall x, In x cl -> separator x = false).
  { intros x Hx. apply filter_In in Hx. now apply negb_true_iff. }
  clearbody cl. simpl. rewrite !orb_true_iff, !test_spec.
  intros [Hl | [Hplus | [Hi | [Hs | Hf]]]]; [| | | |discriminate].
  - apply lang_chr in Hl. destruct Hl as (v1 & -> & Hl).
    apply lang_chr in Hl. destruct Hl as (ds & -> & Hl).
    apply lang_digits in Hl. exists ds. tauto.
  - apply lang_chr in Hplus. destruct Hplus as (v1 & -> & H).
    apply lang_chr in H. destruct H as (v2 & -> & H).
    apply lang_chr in H. destruct H as (v3 & -> & H).
    apply lang_chr in H. destruct H as (ds & -> & H).
    apply lang_digits in H. exists ds. tauto.
  - apply lang_chr in Hi. destruct Hi as (v1 & -> & H).
    apply lang_chr in H. destruct H as (v2 & -> & H).
    apply lang_chr in H. destruct H as (ds & -> & H).
    apply lang_digits in H. exists ds. tauto.
  - apply lang_chr in Hs. destruct Hs as (v1 & -> & H).
    apply lang_chr in H. destruct H as (v2 & -> & H).
    apply lang_digits_then in H. destruct H as (d1 & v3 & -> & L1 & D1 & H).
    apply lang_opt_space in H. destruct H as [H | (c & v & -> & Hc)].
    2:{ exfalso. assert (Hin : In c (code "0" :: code "7" :: d1 ++ c :: v)).
        { right. right. apply in_or_app. right. now left. }
        apply Hsep in Hin. unfold separator in Hin. now rewrite Hc in Hin. }
    apply lang_digits_then in H. destruct H as (d3 & v4 & -> & L3 & D3 & H).
    apply lang_opt_space in H. destruct H as [H | (c & v & -> & Hc)].
    2:{ exfalso.
        assert (Hin : In c (code "0" :: code "7" :: d1 ++ d3 ++ c :: v)).
        { right. right. apply in_or_app. right. apply in_or_app. right.
          now left. }
        apply Hsep in Hin. unfold separator in Hin. now rewrite Hc in Hin. }
    apply lang_digits in H. destruct H as [L4 D4].
    exists (d1 ++ d3 ++ v4). rewrite !length_app, !forallb_app, D1, D3, D4.
    split; [lia|]. split; [reflexivity|]. now left.
Qed.

End MobileShapes.

(** ** formatPhoneForWhatsApp *)

Section WhatsApp.

Lemma format_unfold (c : char) (p : jsstring) :
  formatPhoneForWhatsApp (Some (c :: p)) =
  country_coded (remove_leading "+" (remove_all not_digit_or_plus (c :: p))).
Proof. reflexivity. Qed.

Lemma remove_all_kept (s : jsstring) :
  remove_all not_digit_or_plus s = filter digit_or_plus s.
Proof.
  apply filter_ext. intros c. unfold not_digit_or_plus, digit_or_plus.
  apply negb_involutive.
Qed.

Lemma country_coded_starts (x : jsstring) :
  startsWith (country_coded x) (lit "94") = true.
Proof.
  unfold country_coded.
  destruct (startsWith x (lit "0")).
  - change (startsWith (lit "94" ++ substring 1 x) (lit "94")) with true.
    reflexivity.
  - destruct (startsWith x (lit "94")) eqn:E; simpl; [assumption|reflexivity].
Qed.

Lemma country_coded_digits (x : jsstring) :
  forallb is_digit (country_coded x) = forallb is_digit x.
Proof.
  unfold country_coded. destruct x as [|a x]; [reflexivity|].
  change (startsWith (a :: x) (lit "0")) with (char_eqb a (code "0") && true).
  rewrite andb_true_r. destruct (char_eqb a (code "0")) eqn:E.
  - apply N.eqb_eq in E. subst a. reflexivity.
  - destruct (startsWith (a :: x) (lit "94")); reflexivity.
Qed.

Lemma country_coded_kept (x : jsstring) :
  forallb digit_or_plus x = true ->
  forallb digit_or_plus (country_coded x) = true.
Proof.
  unfold country_coded. destruct x as [|a x]; [reflexivity|].
  change (startsWith (a :: x) (lit "0")) with (char_eqb a (code "0") && true).
  rewrite andb_true_r. destruct (char_eqb a (code "0")) eqn:E.
  - simpl. intros H. apply andb_true_iff in H. apply H.
  - destruct (startsWith (a :: x) (lit "94")); intros H; [exact H|].
    exact H.
Qed.

Lemma remove_leading_kept (a : ascii) (f : char -> bool) (s : jsstring) :
  forallb f s = true -> forallb f (remove_leading a s) = true.
Proof.
  destruct s as [|c t]; [reflexivity|]. simpl.
  destruct (is_char a c); [|trivial].
  intros H. apply andb_true_iff in H. apply H.
Qed.

Lemma digits_of_kept (s : jsstring) :
  forallb is_digit (filter digit_or_plus s)
  = forallb (fun c => negb (is_char "+" c)) s.
Proof.
  induction s as [|c t IH]; [reflexivity|]. simpl. unfold digit_or_plus at 1.
  destruct (is_char "+" c) eqn:Hp.
  - rewrite orb_true_r. simpl. apply is_char_eq in Hp. subst c. reflexivity.
  - rewrite orb_false_r. destruct (is_digit c) eqn:Hd; simpl.
    + now rewrite Hd.
    + assumption.
Qed.

Lemma digits_after_leading_plus (raw : jsstring) :
  forallb is_digit (remove_leading "+" (filter digit_or_plus raw))
  = no_later_plus raw.
Proof.
  unfold no_later_plus. induction raw as [|c t IH]; [reflexivity|].
  simpl. destruct (digit_or_plus c) eqn:Hk; [|assumption].
  unfold remove_leading. destruct (is_char "+" c) eqn:Hp.
  - apply digits_of_kept.
  - simpl. unfold digit_or_plus in Hk. rewrite Hp, orb_false_r in Hk.
    rewrite Hk. apply digits_of_kept.
Qed.

(** An accepted number is formatted to [947] and its eight digits. *)
Lemma format_of_valid (p : jsstring) :
  isValidSriLankanMobile (Some p) = true ->
  exists ds, List.length ds = 8 /\ forallb is_digit ds = true /\
             formatPhoneForWhatsApp (Some p) = lit "947" ++ ds.
Proof.
  intros H. destruct (valid_shape p H) as (ds & Hl & Hd & Hshape).
  exists ds. split; [assumption|]. split; [assumption|].
  destruct p as [|c p]; [discriminate|]. rewrite format_unfold.
  assert (Hk : remove_all not_digit_or_plus (c :: p)
               = filter (fun x => negb (not_digit_or_plus x))
                   (remove_all separator (c :: p))).
  { unfold remove_all. symmetry. apply filter_through.
    apply kept_not_separator. }
  assert (Hds : forallb (fun x => negb (not_digit_or_plus x)) ds = true).
  { revert Hd. apply forallb_impl. intros x Hx. apply kept_digit_or_plus.
    now left. }
  rewrite Hk.
  destruct Hshape as [-> | [-> | ->]];
    (rewrite filter_all; [reflexivity|]);
    rewrite forallb_app, Hds; reflexivity.
Qed.

End WhatsApp.

(** C6: every phone string [isValidSriLankanMobile] accepts is formatted by
    [formatPhoneForWhatsApp] to a string that starts with the country code
    94 and consists of exactly 11 digits. *)
Theorem valid_mobile_formats_to_94_and_11_digits (phone : option jsstring) :
  isValidSriLankanMobile phone = true ->
  startsWith (formatPhoneForWhatsApp phone) (lit "94") = true /\
  List.length (formatPhoneForWhatsApp phone) = 11 /\
  forallb is_digit (formatPhoneForWhatsApp phone) = true.
Proof.
  destruct phone as [p|]; [|discriminate]. intros H.
  destruct (format_of_valid p H) as (ds & Hl & Hd & ->).
  split; [reflexivity|]. split.
  - rewrite length_app, Hl. reflexivity.
  - rewrite forallb_app, Hd. reflexivity.
Qed.

Lemma valid_mobile_formats_witness :
  startsWith (formatPhoneForWhatsApp (Some (lit "077 123 4567"))) (lit "94") = true /\
  List.length (formatPhoneForWhatsApp (Some (lit "077 123 4567"))) = 11 /\
  forallb is_digit (formatPhoneForWhatsApp (Some (lit "077 123 4567"))) = true.
Proof.
  apply (valid_mobile_formats_to_94_and_11_digits (Some (lit "077 123 4567"))).
  reflexivity.
Defined.

(** C2, as stated, fails: a plus that is not the first kept character
    stays in the result.  A listing of two numbers is formatted to a string
    with a plus in the middle. *)
Lemma whatsapp_keeps_a_later_plus :
  formatPhoneForWhatsApp (Some (lit "+94 11 234 5678 / +94 77 123 4567"))
  = lit "94112345678+94771234567"
  /\ forallb is_digit
       (formatPhoneForWhatsApp (Some (lit "+94 11 234 5678 / +94 77 123 4567")))
     = false.
Proof. split; reflexivity. Qed.

(** C2, amended: for every input string, [formatPhoneForWhatsApp] returns
    a string of digit and plus characters only; the result is digit-only
    exactly when the input has no plus after its first digit-or-plus
    character; and the result is empty only when the input was empty. *)
Theorem whatsapp_digits_and_plus (raw : jsstring) :
  forallb digit_or_plus (formatPhoneForWhatsApp (Some raw)) = true /\
  (forallb is_digit (formatPhoneForWhatsApp (Some raw)) = true
   <-> no_later_plus raw = true) /\
  (formatPhoneForWhatsApp (Some raw) = [] <-> raw = []).
Proof.
  destruct raw as [|c p].
  - repeat split; reflexivity.
  - rewrite format_unfold, remove_all_kept. split; [|split].
    + apply country_coded_kept, remove_leading_kept, forallb_filter_self.
    + rewrite country_coded_digits, digits_after_leading_plus. reflexivity.
    + split; [|discriminate]. intros H.
      pose proof (country_coded_starts
        (remove_leading "+" (filter digit_or_plus (c :: p)))) as Hs.
      rewrite H in Hs. discriminate.
Qed.

(** ** formatPhoneForDisplay *)

Section Display.

Lemma ten_chars (c : jsstring) :
  List.length c = 10 ->
  exists a0 a1 a2 a3 a4 a5 a6 a7 a8 a9,
    c = [a0; a1; a2; a3; a4; a5; a6; a7; a8; a9].
Proof.
  intros H.
  do 10 (destruct c as [|? c]; [discriminate|]).
  destruct c; [|discriminate]. repeat eexists.
Qed.

Lemma display_unfold (c : char) (p : jsstring) :
  formatPhoneForDisplay (Some (c :: p)) =
  let cleanPhone := remove_all (fun c => negb (is_digit c)) (c :: p) in
  if (List.length cleanPhone =? 10)%nat && startsWith cleanPhone (lit "0")
  then grouped cleanPhone else c :: p.
Proof. reflexivity. Qed.

(** The digits of the grouped form are the ten digits it was built from. *)
Lemma digits_of_grouped (c : jsstring) :
  List.length c = 10 -> forallb is_digit c = true ->
  remove_all (fun c => negb (is_digit c)) (grouped c) = c
  /\ test pat_grouped (grouped c) = true
  /\ exists a g, grouped c = a :: g.
Proof.
  intros Hl Hd.
  destruct (ten_chars c Hl) as (a0 & a1 & a2 & a3 & a4 & a5 & a6 & a7 & a8 & a9 & ->).
  cbn [forallb] in Hd. rewrite !andb_true_iff in Hd.
  destruct Hd as (D0 & D1 & D2 & D3 & D4 & D5 & D6 & D7 & D8 & D9 & _).
  split; [|split].
  - unfold grouped, slice, substring, remove_all.
    cbn [firstn skipn app lit Nat.sub filter].
    rewrite D0, D1, D2, D3, D4, D5, D6, D7, D8, D9. reflexivity.
  - apply test_spec. unfold pat_grouped.
    apply lang_digits_then.
    exists [a0; a1; a2], [code " "; a3; a4; a5; code " "; a6; a7; a8; a9].
    split; [reflexivity|]. split; [reflexivity|].
    split; [cbn [forallb]; now rewrite D0, D1, D2|].
    apply lang_chr. exists [a3; a4; a5; code " "; a6; a7; a8; a9].
    split; [reflexivity|]. apply lang_digits_then.
    exists [a3; a4; a5], [code " "; a6; a7; a8; a9].
    split; [reflexivity|]. split; [reflexivity|].
    split; [cbn [forallb]; now rewrite D3, D4, D5|].
    apply lang_chr. exists [a6; a7; a8; a9].
    split; [reflexivity|]. apply lang_digits.
    split; [reflexivity|]. cbn [forallb]. now rewrite D6, D7, D8, D9.
  - now exists a0, [a1; a2; code " "; a3; a4; a5; code " "; a6; a7; a8; a9].
Qed.

Lemma display_of_grouped (c : jsstring) :
  List.length c = 10 -> forallb is_digit c = true ->
  startsWith c (lit "0") = true ->
  formatPhoneForDisplay (Some (grouped c)) = grouped c.
Proof.
  intros Hl Hd Hs.
  destruct (digits_of_grouped c Hl Hd) as (Hc & _ & a & g & Hg).
  rewrite Hg at 1. rewrite display_unfold. cbv zeta. rewrite <- Hg, Hc, Hl, Hs.
  reflexivity.
Qed.

End Display.

(** C8: [formatPhoneForDisplay] is idempotent on every input, absent or
    not; on every string whose digits (what is left once all other characters
    are removed) are ten and start with [0], separators or not, it returns
    those digits grouped, which matches [DDD DDD DDDD], and a second
    application returns the same grouped string. *)
Theorem display_format_idempotent :
  (forall x : option jsstring,
     formatPhoneForDisplay (Some (formatPhoneForDisplay x))
     = formatPhoneForDisplay x) /\
  (forall s digits : jsstring,
     digits = remove_all (fun c => negb (is_digit c)) s ->
     List.length digits = 10 ->
     startsWith digits (lit "0") = true ->
     formatPhoneForDisplay (Some s) = grouped digits /\
     test pat_grouped (formatPhoneForDisplay (Some s)) = true /\
     formatPhoneForDisplay (Some (formatPhoneForDisplay (Some s)))
     = formatPhoneForDisplay (Some s)).
Proof.
  split.
  - intros [[|c p]|]; [reflexivity| |reflexivity].
    rewrite display_unfold. cbv zeta.
    set (cl := remove_all (fun c0 => negb (is_digit c0)) (c :: p)).
    destruct ((List.length cl =? 10)%nat && startsWith cl (lit "0")) eqn:E.
    + apply andb_true_iff in E. destruct E as [El Es].
      apply Nat.eqb_eq in El. apply display_of_grouped; try assumption.
      unfold cl, remove_all.
      apply forallb_impl with (f := fun c0 => negb (negb (is_digit c0))).
      * intros x. now rewrite negb_involutive.
      * apply forallb_filter_self.
    + rewrite display_unfold. cbv zeta. fold cl. now rewrite E.
  - intros s digits Hdigits Hl Hs.
    assert (Hd : forallb is_digit digits = true).
    { rewrite Hdigits. unfold remove_all.
      apply forallb_impl with (f := fun c0 => negb (negb (is_digit c0))).
      - intros x. now rewrite negb_involutive.
      - apply forallb_filter_self. }
    assert (Hg : formatPhoneForDisplay (Some s) = grouped digits).
    { destruct s as [|c p]; [subst digits; discriminate Hl|].
      rewrite display_unfold. cbv zeta. rewrite <- Hdigits.
      now rewrite Hl, Hs. }
    rewrite Hg. split; [reflexivity|]. split.
    + now apply digits_of_grouped.
    + now apply display_of_grouped.
Qed.

Lemma display_format_witness :
  formatPhoneForDisplay (Some (lit "(077) 123-4567")) = grouped (lit "0771234567") /\
  test pat_grouped (formatPhoneForDisplay (Some (lit "(077) 123-4567"))) = true /\
  formatPhoneForDisplay
    (Some (formatPhoneForDisplay (Some (lit "(077) 123-4567"))))
  = formatPhoneForDisplay (Some (lit "(077) 123-4567")).
Proof.
  apply (proj2 display_format_idempotent (lit "(077) 123-4567")
           (lit "0771234567"));
    reflexivity.
Defined.

(** ** calculateLeadScore *)

Section Score.

Lemma rating_gt_spec (q b : Q) :
  rating_gt (Some q) b = true <-> (b < q)%Q.
Proof.
  unfold rating_gt. rewrite negb_true_iff.
  destruct (Qle_bool q b) eqn:E.
  - apply Qle_bool_iff in E. split; [discriminate|].
    intros H. exfalso. exact (Qlt_not_le _ _ H E).
  - split; [|reflexivity]. intros _. apply Qnot_le_lt. intros H.
    apply Qle_bool_iff in H. congruence.
Qed.

End Score.

(** C4: [calculateLeadScore] applies its rules in order, the first match
    winning: more than 100 reviews and a rating above 4.0 give Hot; otherwise
    more than 50 reviews give Warm, whatever the rating; otherwise Cold.  An
    absent review count scores as 0 does, and an absent rating is never Hot.
    So score(150, 4.5) = Hot, score(60, 3.0) = Warm, score(5, 5.0) = Cold and
    score(absent, absent) = Cold. *)
Theorem lead_score_rules :
  (forall n q, (100 < n)%Z -> (4 # 1 < q)%Q ->
     calculateLeadScore (Some n) (Some q) = Hot) /\
  (forall n rating, (50 < n)%Z ->
     ~ ((100 < n)%Z /\ exists q, rating = Some q /\ (4 # 1 < q)%Q) ->
     calculateLeadScore (Some n) rating = Warm) /\
  (forall n rating, (n <= 50)%Z -> calculateLeadScore (Some n) rating = Cold) /\
  (forall rating,
     calculateLeadScore None rating = calculateLeadScore (Some 0%Z) rating) /\
  (forall ratingCount, calculateLeadScore ratingCount None <> Hot) /\
  calculateLeadScore (Some 150%Z) (Some (9 # 2)%Q) = Hot /\
  calculateLeadScore (Some 60%Z) (Some (3 # 1)%Q) = Warm /\
  calculateLeadScore (Some 5%Z) (Some (5 # 1)%Q) = Cold /\
  calculateLeadScore None None = Cold.
Proof.
  repeat split; try reflexivity.
  - intros n q Hn Hq. unfold calculateLeadScore.
    apply rating_gt_spec in Hq. rewrite Hq. unfold count_gt.
    apply Z.ltb_lt in Hn. now rewrite Hn.
  - intros n rating Hn Hnot. unfold calculateLeadScore, count_gt.
    pose proof Hn as Hn'. apply Z.ltb_lt in Hn'. rewrite Hn'.
    destruct (100 <? n)%Z eqn:E; [|reflexivity].
    destruct (rating_gt rating (4 # 1)%Q) eqn:Er; [|reflexivity].
    exfalso. apply Hnot. apply Z.ltb_lt in E. split; [assumption|].
    destruct rating as [q|]; [|discriminate].
    exists q. split; [reflexivity|]. now apply rating_gt_spec.
  - intros n rating Hn. unfold calculateLeadScore, count_gt.
    assert (H1 : (100 <? n)%Z = false) by (apply Z.ltb_ge; lia).
    assert (H2 : (50 <? n)%Z = false) by (apply Z.ltb_ge; lia).
    now rewrite H1, H2.
  - intros ratingCount. unfold calculateLeadScore. simpl.
    rewrite andb_false_r. destruct (count_gt ratingCount 50); discriminate.
Qed.

Lemma lead_score_witness :
  calculateLeadScore (Some 150%Z) (Some (9 # 2)%Q) = Hot /\
  calculateLeadScore (Some 60%Z) (Some (3 # 1)%Q) = Warm /\
  calculateLeadScore (Some 5%Z) (Some (5 # 1)%Q) = Cold.
Proof.
  destruct lead_score_rules as (Hhot & Hwarm & Hcold & _).
  split; [|split].
  - apply Hhot; reflexivity.
  - apply Hwarm; [reflexivity|]. intros [H _]. discriminate H.
  - apply Hcold. discriminate.
Defined.

(** ** The sort *)

Section SortFacts.
Variable A : Type.
Variable comparefn : A -> A -> option Z.

Lemma insert_perm (x : A) (l : list A) :
  Permutation (insert comparefn x l) (x :: l).
Proof.
  induction l as [|y l IH]; simpl; [reflexivity|].
  destruct (SortCompare comparefn x y <=? 0)%Z; [reflexivity|].
  rewrite IH. apply perm_swap.
Qed.

Lemma sort_perm (l : list A) : Permutation (sort comparefn l) l.
Proof.
  induction l as [|x l IH]; simpl; [reflexivity|].
  rewrite insert_perm. now constructor.
Qed.

Lemma In_sort (x : A) (l : list A) : In x (sort comparefn l) <-> In x l.
Proof.
  split; apply Permutation_in;
    [apply sort_perm | symmetry; apply sort_perm].
Qed.

(** On elements where the comparator is the difference of two keys, the
    sort orders by descending key and keeps equal keys in place. *)
Variable key : A -> Z.
Variable ok : A -> Prop.
Hypothesis compare_keys :
  forall x y, ok x -> ok y -> SortCompare comparefn x y = (key y - key x)%Z.

Let desc (a b : A) : Prop := (key b <= key a)%Z.

Lemma insert_sorted (x : A) (l : list A) :
  ok x -> Forall ok l ->
  StronglySorted desc l -> StronglySorted desc (insert comparefn x l).
Proof.
  intros Hx Hok Hs. induction Hs as [|y l Hs IH Hy]; simpl.
  - constructor; constructor.
  - inversion Hok as [|? ? Hoky Hokl]; subst.
    rewrite (compare_keys Hx Hoky).
    destruct (key y - key x <=? 0)%Z eqn:E.
    + apply Z.leb_le in E. constructor; [now constructor|].
      constructor; [unfold desc; lia|].
      revert Hy. apply Forall_impl. unfold desc. intros; lia.
    + apply Z.leb_gt in E. constructor; [now apply IH|].
      eapply Permutation_Forall.
      * symmetry. apply insert_perm.
      * constructor; [unfold desc; lia|assumption].
Qed.

Lemma sort_sorted (l : list A) :
  Forall ok l -> StronglySorted desc (sort comparefn l).
Proof.
  induction 1 as [|x l Hx Hl IH]; simpl; [constructor|].
  apply insert_sorted; try assumption.
  eapply Permutation_Forall; [|eassumption].
  symmetry. apply sort_perm.
Qed.

Lemma insert_filter_key (k : Z) (x : A) (l : list A) :
  ok x -> Forall ok l ->
  filter (fun a => (key a =? k)%Z) (insert comparefn x l)
  = filter (fun a => (key a =? k)%Z) (x :: l).
Proof.
  intros Hx Hok. induction Hok as [|y l Hy Hl IH]; [reflexivity|].
  cbn [insert]. rewrite (compare_keys Hx Hy).
  destruct (key y - key x <=? 0)%Z eqn:E; [reflexivity|].
  apply Z.leb_gt in E. cbn [filter] in *. rewrite IH.
  destruct (key x =? k)%Z eqn:Ex, (key y =? k)%Z eqn:Ey; try reflexivity.
  apply Z.eqb_eq in Ex, Ey. lia.
Qed.

Lemma sort_stable (k : Z) (l : list A) :
  Forall ok l ->
  filter (fun a => (key a =? k)%Z) (sort comparefn l)
  = filter (fun a => (key a =? k)%Z) l.
Proof.
  induction 1 as [|x l Hx Hl IH]; [reflexivity|].
  cbn [sort fold_right]. fold (sort comparefn l).
  rewrite insert_filter_key; try assumption.
  - cbn [filter]. now rewrite IH.
  - eapply Permutation_Forall; [|eassumption].
    symmetry. apply sort_perm.
Qed.

End SortFacts.

(** ** filterSuitableLeads *)

Section Qualify.

Lemma filterSuitableLeads_unfold (places : Arg) :
  filterSuitableLeads places
  = sort byRatingCount (map enrich (filter suitable (elements places))).
Proof.
  destruct places as [| |b|n|s|r|l]; try reflexivity.
  - unfold filterSuitableLeads. simpl. now rewrite orb_true_r.
  - unfold filterSuitableLeads. simpl. now rewrite orb_true_r.
  - unfold filterSuitableLeads. simpl. now rewrite orb_true_r.
Qed.

Lemma valid_or_empty (v : option jsstring) :
  isValidSriLankanMobile (Js.or v (Some [])) = isValidSriLankanMobile v.
Proof. now destruct v as [[|c p]|]. Qed.

(** The four tests of the filter callback. *)
Lemma suitable_spec (place : Place.t) :
  suitable place = true <->
  (10 <= placeReviewCount place)%Z
  /\ truthy (Place.websiteUri place) = false
  /\ statusAllows place = true
  /\ isValidSriLankanMobile (selectedPhone place) = true.
Proof.
  unfold suitable, placeReviewCount, statusAllows, selectedPhone.
  rewrite valid_or_empty.
  destruct (or_zero (Place.userRatingCount place) <? 10)%Z eqn:E1.
  { apply Z.ltb_lt in E1. split; [discriminate|]. intros [H _]. lia. }
  apply Z.ltb_ge in E1.
  destruct (truthy (Place.websiteUri place)).
  { split; [discriminate|]. intros (_ & H & _). discriminate. }
  destruct (truthy (Place.businessStatus place)
            && strict_neq (Place.businessStatus place) (lit "OPERATIONAL")).
  { split; [discriminate|]. intros (_ & _ & H & _). discriminate. }
  destruct (isValidSriLankanMobile _); simpl; intuition congruence.
Qed.

Lemma count_of_suitable (place : Place.t) :
  suitable place = true ->
  exists n, Place.userRatingCount place = Some n /\ (10 <= n)%Z.
Proof.
  intros H. apply suitable_spec in H. destruct H as [H _].
  unfold placeReviewCount, or_zero in H.
  destruct (Place.userRatingCount place) as [n|]; [|lia].
  exists n. split; [reflexivity|].
  destruct (n =? 0)%Z; lia.
Qed.

Lemma byRatingCount_keys (x y : Lead.t) :
  counted x -> counted y ->
  SortCompare byRatingCount x y = (reviewCount y - reviewCount x)%Z.
Proof.
  intros (n & Hn & Hn10) (m & Hm & Hm10).
  unfold SortCompare, byRatingCount, reviewCount, or_zero, minus.
  rewrite Hn, Hm.
  destruct (Z.eqb_spec n 0), (Z.eqb_spec m 0); lia.
Qed.

Lemma survivors_counted (l : list Place.t) :
  Forall counted (map enrich (filter suitable l)).
Proof.
  apply Forall_forall. intros lead H. apply in_map_iff in H.
  destruct H as (place & <- & H). apply filter_In in H.
  now apply count_of_suitable.
Qed.

(** The leads returned are the enriched suitable places. *)
Lemma In_filterSuitableLeads (places : Arg) (lead : Lead.t) :
  In lead (filterSuitableLeads places) <->
  exists place, In place (elements places) /\ suitable place = true
                /\ lead = enrich place.
Proof.
  rewrite filterSuitableLeads_unfold, In_sort, in_map_iff.
  split; intros (place & H1 & H2).
  - apply filter_In in H2. exists place. now split; [|split].
  - destruct H2 as [H2 ->]. exists place. split; [reflexivity|].
    now apply filter_In.
Qed.

End Qualify.

(** C1, as stated, fails: a place that passes the review-count, website and
    status tests, whose national string is a landline and whose
    international string is an accepted mobile, is not returned. *)
Lemma landline_national_hides_mobile :
  (10 <= placeReviewCount landline_first)%Z /\
  truthy (Place.websiteUri landline_first) = false /\
  statusAllows landline_first = true /\
  isValidSriLankanMobile (Place.nationalPhoneNumber landline_first) = false /\
  isValidSriLankanMobile (Place.internationalPhoneNumber landline_first) = true /\
  filterSuitableLeads (Array [landline_first]) = [].
Proof. repeat split; try reflexivity. discriminate. Qed.

(** C1, amended: the phone test of [filterSuitableLeads] holds for a record
    exactly when the string [national || international] selects (the
    national string when it is non-empty, otherwise the international one)
    passes [isValidSriLankanMobile]; so every record that meets the
    review-count, website and status tests, whose national string is absent
    or empty and whose international string passes validation, is in the
    output, formatted from the international string. *)
Theorem phone_test_reads_selected_string :
  (forall place,
     suitable place = true <->
     (10 <= placeReviewCount place)%Z
     /\ truthy (Place.websiteUri place) = false
     /\ statusAllows place = true
     /\ isValidSriLankanMobile (selectedPhone place) = true) /\
  (forall place,
     truthy (Place.nationalPhoneNumber place) = true ->
     selectedPhone place = Place.nationalPhoneNumber place) /\
  (forall places place,
     In place places ->
     (10 <= placeReviewCount place)%Z ->
     truthy (Place.websiteUri place) = false ->
     statusAllows place = true ->
     truthy (Place.nationalPhoneNumber place) = false ->
     isValidSriLankanMobile (Place.internationalPhoneNumber place) = true ->
     In (enrich place) (filterSuitableLeads (Array places)) /\
     Lead.formattedWhatsapp (enrich place)
     = formatPhoneForWhatsApp (Place.internationalPhoneNumber place)).
Proof.
  split; [exact suitable_spec|]. split.
  - intros place H. unfold selectedPhone, Js.or. now rewrite H.
  - intros places place Hin Hc Hw Hs Hn Hv.
    assert (Hsel : selectedPhone place = Place.internationalPhoneNumber place).
    { unfold selectedPhone, Js.or. now rewrite Hn. }
    split.
    + apply In_filterSuitableLeads. exists place.
      split; [assumption|]. split; [|reflexivity].
      apply suitable_spec. rewrite Hsel. tauto.
    + simpl. fold (selectedPhone place). now rewrite Hsel.
Qed.

Lemma phone_test_witness :
  In (enrich international_only)
     (filterSuitableLeads (Array [international_only])) /\
  Lead.formattedWhatsapp (enrich international_only)
  = formatPhoneForWhatsApp (Place.internationalPhoneNumber international_only).
Proof.
  apply (proj2 (proj2 phone_test_reads_selected_string)
           [international_only] international_only).
  - left. reflexivity.
  - discriminate.
  - reflexivity.
  - reflexivity.
  - reflexivity.
  - reflexivity.
Defined.

(** C3: every lead [filterSuitableLeads] returns has an absent or empty
    [websiteUri], a [userRatingCount] of at least 10, and a non-empty
    [formattedWhatsapp] that is the format of one of its phone strings, one
    that [isValidSriLankanMobile] accepts. *)
Theorem leads_meet_the_criteria (places : Arg) (lead : Lead.t) :
  In lead (filterSuitableLeads places) ->
  (Lead.websiteUri lead = None \/ Lead.websiteUri lead = Some []) /\
  (exists n, Lead.userRatingCount lead = Some n /\ (10 <= n)%Z) /\
  Lead.formattedWhatsapp lead <> [] /\
  exists phone,
    (Lead.nationalPhoneNumber lead = Some phone
     \/ Lead.internationalPhoneNumber lead = Some phone) /\
    isValidSriLankanMobile (Some phone) = true /\
    Lead.formattedWhatsapp lead = formatPhoneForWhatsApp (Some phone).
Proof.
  intros H. apply In_filterSuitableLeads in H.
  destruct H as (place & _ & Hs & ->).
  pose proof (count_of_suitable place Hs) as Hcount.
  apply suitable_spec in Hs. destruct Hs as (_ & Hw & _ & Hv).
  assert (Hphone : exists phone,
            (Place.nationalPhoneNumber place = Some phone
             \/ Place.internationalPhoneNumber place = Some phone)
            /\ selectedPhone place = Some phone).
  { unfold selectedPhone, Js.or in *.
    destruct (truthy (Place.nationalPhoneNumber place)).
    - destruct (Place.nationalPhoneNumber place) as [phone|]; [|discriminate].
      exists phone. now split; [left|].
    - destruct (Place.internationalPhoneNumber place) as [phone|];
        [|discriminate].
      exists phone. now split; [right|]. }
  destruct Hphone as (phone & Hfield & Hsel). rewrite Hsel in Hv.
  assert (Hf : Lead.formattedWhatsapp (enrich place)
               = formatPhoneForWhatsApp (Some phone)).
  { simpl. fold (selectedPhone place). now rewrite Hsel. }
  split; [|split; [exact Hcount|split]].
  - simpl. destruct (Place.websiteUri place) as [[|c w]|];
      [now right|discriminate|now left].
  - rewrite Hf. destruct (format_of_valid phone Hv) as (ds & _ & _ & ->).
    discriminate.
  - exists phone. split; [exact Hfield|]. now split.
Qed.

Lemma leads_meet_the_criteria_witness :
  (Lead.websiteUri (enrich international_only) = None
   \/ Lead.websiteUri (enrich international_only) = Some []) /\
  (exists n, Lead.userRatingCount (enrich international_only) = Some n
             /\ (10 <= n)%Z) /\
  Lead.formattedWhatsapp (enrich international_only) <> [] /\
  exists phone,
    (Lead.nationalPhoneNumber (enrich international_only) = Some phone
     \/ Lead.internationalPhoneNumber (enrich international_only) = Some phone) /\
    isValidSriLankanMobile (Some phone) = true /\
    Lead.formattedWhatsapp (enrich international_only)
    = formatPhoneForWhatsApp (Some phone).
Proof.
  apply (leads_meet_the_criteria (Array [international_only])).
  left. reflexivity.
Defined.

(** C5: the output of [filterSuitableLeads] is in descending order of
    review count, and the sort is stable: for every count, the leads with
    that count appear in the output in the order their places had in the
    input. *)
Theorem leads_sorted_descending_and_stable (places : Arg) :
  StronglySorted descending (filterSuitableLeads places) /\
  forall k : Z,
    filter (fun lead => (reviewCount lead =? k)%Z) (filterSuitableLeads places)
    = map enrich
        (filter (fun place => suitable place && (placeReviewCount place =? k)%Z)
                (elements places)).
Proof.
  rewrite filterSuitableLeads_unfold. split.
  - apply (@sort_sorted _ byRatingCount reviewCount counted byRatingCount_keys).
    apply survivors_counted.
  - intros k.
    rewrite (@sort_stable _ byRatingCount reviewCount counted byRatingCount_keys);
      [|apply survivors_counted].
    induction (elements places) as [|place l IH]; [reflexivity|].
    cbn [filter]. destruct (suitable place); cbn [andb map filter].
    + change (reviewCount (enrich place)) with (placeReviewCount place).
      destruct (placeReviewCount place =? k)%Z; cbn [map]; now rewrite IH.
    + exact IH.
Qed.

(** ** filterSuitableLeads on arbitrary arrays *)

Section LooseFacts.



















End LooseFacts.

(** The guard of the typed function: an argument that is not an array gives
    the empty array. *)
Lemma non_array_gives_no_leads (places : Arg) :
  isArray places = false -> filterSuitableLeads places = [].
Proof.
  intros H. unfold filterSuitableLeads. rewrite H. simpl.
  now rewrite orb_true_r.
Qed.




(** C10: every lead returned comes from a place of the input that passed
    the filter, with each of the place's fields unchanged; only [leadScore]
    and [formattedWhatsapp] are added, and the output holds one lead for
    each surviving place. *)
Theorem leads_carry_place_fields (places : Arg) (lead : Lead.t) :
  In lead (filterSuitableLeads places) ->
  Permutation (filterSuitableLeads places)
              (map enrich (filter suitable (elements places))) /\
  exists place,
    In place (elements places) /\ suitable place = true /\
    Lead.id lead = Place.id place /\
    Lead.placeId lead = Place.placeId place /\
    Lead.displayName lead = Place.displayName place /\
    Lead.rating lead = Place.rating place /\
    Lead.userRatingCount lead = Place.userRatingCount place /\
    Lead.nationalPhoneNumber lead = Place.nationalPhoneNumber place /\
    Lead.internationalPhoneNumber lead = Place.internationalPhoneNumber place /\
    Lead.websiteUri lead = Place.websiteUri place /\
    Lead.businessStatus lead = Place.businessStatus place /\
    Lead.photos lead = Place.photos place /\
    Lead.types lead = Place.types place /\
    Lead.formattedAddress lead = Place.formattedAddress place /\
    Lead.location lead = Place.location place /\
    Lead.leadScore lead
    = calculateLeadScore (Place.userRatingCount place) (Place.rating place) /\
    Lead.formattedWhatsapp lead = formatPhoneForWhatsApp (selectedPhone place).
Proof.
  intros H. split.
  - rewrite filterSuitableLeads_unfold. apply sort_perm.
  - apply In_filterSuitableLeads in H. destruct H as (place & Hin & Hs & ->).
    exists place. repeat split; assumption.
Qed.

Lemma leads_carry_place_fields_witness :
  exists place,
    In place [international_only] /\
    Lead.displayName (enrich international_only) = Place.displayName place /\
    Lead.types (enrich international_only) = Place.types place.
Proof.
  destruct (leads_carry_place_fields (Array [international_only])
              (enrich international_only)) as (_ & place & Hin & _ & H).
  - left. reflexivity.
  - exists place. split; [exact Hin|]. split; apply H.
Defined.

(** ** fetchAllPages *)

Section Pagination.
Variable Result : Type.

Implicit Types (st : State Result) (r : Response Result).

(** While the pages are OK and announce a next page, the callback only
    accumulates their results and sets one timer per page. *)
Lemma deliver_pages (pages rest : list (Response Result)) st :
  Forall (@has_next Result) pages ->
  deliver (pages ++ rest) st
  = deliver rest
      {| allResults := allResults st ++ List.concat (map (@results Result) pages);
         promise := promise st;
         delays := delays st + List.length pages |}.
Proof.
  intros H. revert st. induction H as [|p pages [Hs Hp] _ IH]; intros st.
  - simpl. rewrite app_nil_r, Nat.add_0_r. now destruct st.
  - cbn [app deliver]. unfold handleResults. rewrite Hs, Hp.
    rewrite IH. cbn [allResults promise delays map List.concat List.length].
    now rewrite <- app_assoc, Nat.add_succ_r.
Qed.

Lemma handleResults_zero st r :
  status r = ZERO_RESULTS ->
  handleResults st r
  = ({| allResults := allResults st;
        promise := settle (promise st) (Fulfilled (allResults st));
        delays := delays st |}, Stop).
Proof. intros H. unfold handleResults. now rewrite H. Qed.

Lemma handleResults_other st r (code : jsstring) :
  status r = OtherStatus code ->
  handleResults st r
  = ({| allResults := allResults st;
        promise :=
          settle (promise st)
            (Rejected Result
               {| message := lit "Places API Error: " ++ code |});
        delays := delays st |}, Stop).
Proof. intros H. unfold handleResults. now rewrite H. Qed.

End Pagination.

(** C7: after any number of OK pages that announce a next page, a page
    with status ZERO_RESULTS resolves the promise with exactly the results
    accumulated so far (none, when it is the first page), and a page with any
    status other than OK and ZERO_RESULTS rejects it with an error whose
    message carries that status code; a rejection hands no results to the
    caller, and later pages of the service are not read. *)
Theorem zero_results_resolves_other_status_rejects
    (Result : Type) (pages : list (Response Result))
    (r : Response Result) (rest : list (Response Result)) :
  Forall (@has_next Result) pages ->
  (status r = ZERO_RESULTS ->
   fetchAllPages (pages ++ r :: rest)
   = Fulfilled (List.concat (map (@results Result) pages))) /\
  (forall code, status r = OtherStatus code ->
   fetchAllPages (pages ++ r :: rest)
   = Rejected Result {| message := lit "Places API Error: " ++ code |}).
Proof.
  intros H. unfold fetchAllPages.
  rewrite (deliver_pages (r :: rest) (initial Result) H). cbn [deliver].
  split.
  - intros Hz. now rewrite handleResults_zero.
  - intros code Hc. now rewrite (handleResults_other _ _ Hc).
Qed.

Lemma zero_results_witness :
  fetchAllPages
    [ {| results := [1%positive; 2%positive]; status := OK;
         pagination := Some {| hasNextPage := true |} |};
      {| results := []; status := ZERO_RESULTS; pagination := None |} ]
  = Fulfilled [1%positive; 2%positive]
  /\
  fetchAllPages
    [ {| results := [1%positive; 2%positive]; status := OK;
         pagination := Some {| hasNextPage := true |} |};
      {| results := []; status := OtherStatus (lit "OVER_QUERY_LIMIT");
         pagination := None |} ]
  = Rejected positive
      {| message := lit "Places API Error: OVER_QUERY_LIMIT" |}.
Proof.
  split.
  - apply (proj1 (@zero_results_resolves_other_status_rejects positive
       [ {| results := [1%positive; 2%positive]; status := OK;
            pagination := Some {| hasNextPage := true |} |} ]
       {| results := []; status := ZERO_RESULTS; pagination := None |} []
       ltac:(repeat constructor))).
    reflexivity.
  - apply (proj2 (@zero_results_resolves_other_status_rejects positive
       [ {| results := [1%positive; 2%positive]; status := OK;
            pagination := Some {| hasNextPage := true |} |} ]
       {| results := []; status := OtherStatus (lit "OVER_QUERY_LIMIT");
          pagination := None |} []
       ltac:(repeat constructor)) (lit "OVER_QUERY_LIMIT")).
    reflexivity.
Defined.

(** ** Further properties of the phone functions *)

Section PhoneFacts.

Lemma starts_94_inv (r : jsstring) :
  startsWith r (lit "94") = true -> exists r', r = lit "94" ++ r'.
Proof.
  destruct r as [|a [|b r']]; simpl; try discriminate.
  - now rewrite andb_false_r.
  - rewrite andb_true_r. intros H. apply andb_true_iff in H.
    destruct H as [Ha Hb]. apply N.eqb_eq in Ha, Hb. subst. now exists r'.
Qed.

Lemma format_kept (phone : option jsstring) :
  forallb digit_or_plus (formatPhoneForWhatsApp phone) = true.
Proof.
  destruct phone as [raw|]; [|reflexivity].
  destruct raw as [|c p]; [reflexivity|].
  rewrite format_unfold, remove_all_kept.
  apply country_coded_kept, remove_leading_kept, forallb_filter_self.
Qed.

Lemma format_fixed_on_94 (r' : jsstring) :
  forallb digit_or_plus r' = true ->
  formatPhoneForWhatsApp (Some (lit "94" ++ r')) = lit "94" ++ r'.
Proof.
  intros H. change (lit "94" ++ r') with (code "9" :: code "4" :: r').
  rewrite format_unfold, remove_all_kept.
  rewrite filter_all by (cbn [forallb]; now rewrite H).
  reflexivity.
Qed.

Lemma format_fixed_point (r : jsstring) :
  startsWith r (lit "94") = true -> forallb digit_or_plus r = true ->
  formatPhoneForWhatsApp (Some r) = r.
Proof.
  intros Hs Hk. destruct (starts_94_inv _ Hs) as (r' & ->).
  apply format_fixed_on_94.
  cbn [lit app forallb] in Hk. apply andb_true_iff in Hk.
  destruct Hk as [_ Hk]. apply andb_true_iff in Hk. apply Hk.
Qed.

Lemma shape_is_valid (p ds : jsstring) :
  List.length ds = 8 -> forallb is_digit ds = true ->
  (remove_all separator p = lit "07" ++ ds
   \/ remove_all separator p = lit "+947" ++ ds
   \/ remove_all separator p = lit "947" ++ ds) ->
  isValidSriLankanMobile (Some p) = true.
Proof.
  intros Hl Hd Hshape.
  destruct p as [|c0 p0].
  { destruct Hshape as [H | [H | H]]; discriminate H. }
  unfold isValidSriLankanMobile.
  set (cl := remove_all separator (c0 :: p0)) in *. clearbody cl.
  assert (Hds : lang (Times 8 digit) ds) by (apply lang_digits; now split).
  simpl. rewrite !orb_true_iff, !test_spec.
  destruct Hshape as [-> | [-> | ->]].
  - left. apply lang_chr. eexists. split; [reflexivity|].
    apply lang_chr. eexists. split; [reflexivity|]. exact Hds.
  - right. left. apply lang_chr. eexists. split; [reflexivity|].
    apply lang_chr. eexists. split; [reflexivity|].
    apply lang_chr. eexists. split; [reflexivity|].
    apply lang_chr. eexists. split; [reflexivity|]. exact Hds.
  - right. right. left. apply lang_chr. eexists. split; [reflexivity|].
    apply lang_chr. eexists. split; [reflexivity|].
    apply lang_chr. eexists. split; [reflexivity|]. exact Hds.
Qed.

Lemma remove_all_app (cls : char -> bool) (a b : jsstring) :
  remove_all cls (a ++ b) = remove_all cls a ++ remove_all cls b.
Proof. apply filter_app. Qed.

Lemma valid_by_cleaned (p q : jsstring) :
  remove_all separator p = remove_all separator q ->
  isValidSriLankanMobile (Some p) = isValidSriLankanMobile (Some q).
Proof.
  intros H.
  assert (Hnil : existsb (fun pattern => test pattern []) mobilePatterns = false)
    by reflexivity.
  destruct p as [|a p], q as [|b q]; try reflexivity.
  - unfold isValidSriLankanMobile. rewrite <- H. simpl remove_all.
    now rewrite Hnil.
  - unfold isValidSriLankanMobile. rewrite H. simpl remove_all.
    now rewrite Hnil.
  - unfold isValidSriLankanMobile. now rewrite H.
Qed.

End PhoneFacts.

(** X1: [isValidSriLankanMobile] accepts a string exactly when, once
    whitespace, hyphens and parentheses are removed, it is [07], [+947] or
    [947] followed by eight digits. *)
Theorem valid_iff_mobile_shape (p : jsstring) :
  isValidSriLankanMobile (Some p) = true <->
  exists ds, List.length ds = 8 /\ forallb is_digit ds = true /\
    (remove_all separator p = lit "07" ++ ds
     \/ remove_all separator p = lit "+947" ++ ds
     \/ remove_all separator p = lit "947" ++ ds).
Proof.
  split.
  - apply valid_shape.
  - intros (ds & Hl & Hd & H). now apply (@shape_is_valid p ds).
Qed.

(** X2: the pattern with optional spaces never decides: on a string whose
    separators are removed it accepts exactly what the local pattern
    [07\d{8}] accepts. *)
Theorem spaced_pattern_is_redundant (p : jsstring) :
  test pat_spaced (remove_all separator p)
  = test pat_local (remove_all separator p).
Proof.
  set (cl := remove_all separator p).
  assert (Hsep : forall x, In x cl -> is_space x = false).
  { intros x Hx. apply filter_In in Hx. destruct Hx as [_ Hx].
    apply negb_true_iff in Hx. unfold separator in Hx.
    destruct (is_space x); [discriminate|reflexivity]. }
  clearbody cl.
  apply eq_true_iff_eq. rewrite !test_spec. split.
  - intros H. apply lang_chr in H. destruct H as (v1 & -> & H).
    apply lang_chr in H. destruct H as (v2 & -> & H).
    apply lang_digits_then in H. destruct H as (d1 & v3 & -> & L1 & D1 & H).
    apply lang_opt_space in H. destruct H as [H | (c & v & -> & Hc)].
    2:{ exfalso. assert (Hin : In c (code "0" :: code "7" :: d1 ++ c :: v)).
        { right. right. apply in_or_app. right. now left. }
        apply Hsep in Hin. congruence. }
    apply lang_digits_then in H. destruct H as (d3 & v4 & -> & L3 & D3 & H).
    apply lang_opt_space in H. destruct H as [H | (c & v & -> & Hc)].
    2:{ exfalso.
        assert (Hin : In c (code "0" :: code "7" :: d1 ++ d3 ++ c :: v)).
        { right. right. apply in_or_app. right. apply in_or_app. right.
          now left. }
        apply Hsep in Hin. congruence. }
    apply lang_digits in H. destruct H as [L4 D4].
    apply lang_chr. eexists. split; [reflexivity|].
    apply lang_chr. eexists. split; [reflexivity|].
    apply lang_digits. rewrite !length_app, !forallb_app, D1, D3, D4.
    split; [lia|reflexivity].
  - intros H. apply lang_chr in H. destruct H as (v1 & -> & H).
    apply lang_chr in H. destruct H as (ds & -> & H).
    apply lang_digits in H. destruct H as [Hl Hd].
    apply lang_chr. eexists. split; [reflexivity|].
    apply lang_chr. eexists. split; [reflexivity|].
    apply lang_digits_then. exists (firstn 1 ds), (skipn 1 ds).
    rewrite firstn_skipn. split; [reflexivity|].
    rewrite <- (firstn_skipn 1 ds) in Hd. rewrite forallb_app in Hd.
    apply andb_true_iff in Hd. destruct Hd as [Hd1 Hd2].
    split; [rewrite length_firstn; lia|]. split; [exact Hd1|].
    exists [], (skipn 1 ds). split; [reflexivity|]. split; [now left|].
    apply lang_digits_then. exists (firstn 3 (skipn 1 ds)), (skipn 3 (skipn 1 ds)).
    rewrite firstn_skipn. split; [reflexivity|].
    rewrite <- (firstn_skipn 3 (skipn 1 ds)) in Hd2. rewrite forallb_app in Hd2.
    apply andb_true_iff in Hd2. destruct Hd2 as [Hd3 Hd4].
    split; [rewrite length_firstn, length_skipn; lia|]. split; [exact Hd3|].
    exists [], (skipn 3 (skipn 1 ds)). split; [reflexivity|]. split; [now left|].
    apply lang_digits. split; [|exact Hd4].
    rewrite !length_skipn. lia.
Qed.

(** X3: [formatPhoneForWhatsApp] is idempotent: formatting its own output
    changes nothing, on every input, absent or not. *)
Theorem whatsapp_format_idempotent (phone : option jsstring) :
  formatPhoneForWhatsApp (Some (formatPhoneForWhatsApp phone))
  = formatPhoneForWhatsApp phone.
Proof.
  destruct phone as [[|c p]|]; try reflexivity.
  apply format_fixed_point.
  - rewrite format_unfold. apply country_coded_starts.
  - apply format_kept.
Qed.

(** X4: [formatPhoneForWhatsApp] does not validate: every non-empty input
    gives a string that starts with 94, and an input without any digit or
    plus gives exactly 94. *)
Theorem whatsapp_format_always_country_coded (raw : jsstring) :
  raw <> [] ->
  startsWith (formatPhoneForWhatsApp (Some raw)) (lit "94") = true /\
  (forallb not_digit_or_plus raw = true ->
   formatPhoneForWhatsApp (Some raw) = lit "94").
Proof.
  intros Hne. destruct raw as [|c p]; [contradiction|].
  rewrite format_unfold. split; [apply country_coded_starts|].
  intros H. unfold remove_all.
  assert (Hnil : filter (fun c0 => negb (not_digit_or_plus c0)) (c :: p) = []).
  { clear Hne. induction (c :: p) as [|x l IH]; [reflexivity|].
    cbn [forallb] in H. apply andb_true_iff in H. destruct H as [Hx Hl].
    cbn [filter]. rewrite Hx. simpl. now apply IH. }
  now rewrite Hnil.
Qed.

Lemma whatsapp_format_always_country_coded_witness :
  startsWith (formatPhoneForWhatsApp (Some (lit "call me"))) (lit "94") = true /\
  (forallb not_digit_or_plus (lit "call me") = true ->
   formatPhoneForWhatsApp (Some (lit "call me")) = lit "94").
Proof.
  apply (@whatsapp_format_always_country_coded (lit "call me")). discriminate.
Defined.

(** X5: the local, the plus-prefixed and the bare international spelling
    of one number have the same canonical form: for every digit string,
    [0 ds], [+94 ds] and [94 ds] are all formatted to [94 ds]. *)
Theorem whatsapp_format_of_spellings (ds : jsstring) :
  forallb is_digit ds = true ->
  formatPhoneForWhatsApp (Some (lit "0" ++ ds)) = lit "94" ++ ds /\
  formatPhoneForWhatsApp (Some (lit "+94" ++ ds)) = lit "94" ++ ds /\
  formatPhoneForWhatsApp (Some (lit "94" ++ ds)) = lit "94" ++ ds.
Proof.
  intros Hd.
  assert (Hk : forallb digit_or_plus ds = true).
  { revert Hd. apply forallb_impl. intros x Hx. unfold digit_or_plus.
    now rewrite Hx. }
  split; [|split].
  - change (lit "0" ++ ds) with (code "0" :: ds).
    rewrite format_unfold, remove_all_kept.
    rewrite filter_all by (cbn [forallb]; now rewrite Hk). reflexivity.
  - change (lit "+94" ++ ds) with (code "+" :: code "9" :: code "4" :: ds).
    rewrite format_unfold, remove_all_kept.
    rewrite filter_all by (cbn [forallb]; now rewrite Hk). reflexivity.
  - now apply format_fixed_on_94.
Qed.

Lemma whatsapp_format_of_spellings_witness :
  formatPhoneForWhatsApp (Some (lit "0" ++ lit "771234567")) = lit "94" ++ lit "771234567" /\
  formatPhoneForWhatsApp (Some (lit "+94" ++ lit "771234567")) = lit "94" ++ lit "771234567" /\
  formatPhoneForWhatsApp (Some (lit "94" ++ lit "771234567")) = lit "94" ++ lit "771234567".
Proof.
  apply (@whatsapp_format_of_spellings (lit "771234567")). reflexivity.
Defined.

(** X6: the canonical form of an accepted number is accepted again. *)
Theorem canonical_form_is_valid (p : jsstring) :
  isValidSriLankanMobile (Some p) = true ->
  isValidSriLankanMobile (Some (formatPhoneForWhatsApp (Some p))) = true.
Proof.
  intros H. destruct (format_of_valid p H) as (ds & Hl & Hd & ->).
  apply (@shape_is_valid _ ds Hl Hd). right. right.
  unfold remove_all. apply filter_all.
  change (lit "947" ++ ds) with (code "9" :: code "4" :: code "7" :: ds).
  cbn [forallb].
  assert (Hs : forallb (fun c => negb (separator c)) ds = true).
  { revert Hd. apply forallb_impl. intros x Hx. apply kept_not_separator.
    apply kept_digit_or_plus. now left. }
  now rewrite Hs.
Qed.

Lemma canonical_form_is_valid_witness :
  isValidSriLankanMobile
    (Some (formatPhoneForWhatsApp (Some (lit "(077) 123-4567")))) = true.
Proof.
  apply (@canonical_form_is_valid (lit "(077) 123-4567")). reflexivity.
Defined.

(** X7: validation ignores separators: adding a whitespace character, a
    hyphen or a parenthesis anywhere in a string does not change whether it
    is accepted. *)
Theorem validation_ignores_separators (a b : jsstring) (c : char) :
  separator c = true ->
  isValidSriLankanMobile (Some (a ++ c :: b))
  = isValidSriLankanMobile (Some (a ++ b)).
Proof.
  intros Hc. apply valid_by_cleaned.
  rewrite !remove_all_app. f_equal. unfold remove_all. cbn [filter].
  now rewrite Hc.
Qed.

Lemma validation_ignores_separators_witness :
  isValidSriLankanMobile (Some (lit "077" ++ code "-" :: lit "1234567"))
  = isValidSriLankanMobile (Some (lit "077" ++ lit "1234567")).
Proof.
  apply (@validation_ignores_separators (lit "077") (lit "1234567") (code "-")).
  reflexivity.
Defined.

Section DisplayFacts.

(** Removing a class that contains the space and no digit from the grouped
    form gives the ten digits back. *)
Lemma ungroup (cls : char -> bool) (c : jsstring) :
  cls (code " ") = true ->
  (forall x, is_digit x = true -> cls x = false) ->
  List.length c = 10 -> forallb is_digit c = true ->
  remove_all cls (grouped c) = c.
Proof.
  intros Hsp Hdig Hl Hd.
  destruct (ten_chars c Hl) as (a0 & a1 & a2 & a3 & a4 & a5 & a6 & a7 & a8 & a9 & ->).
  cbn [forallb] in Hd. rewrite !andb_true_iff in Hd.
  destruct Hd as (D0 & D1 & D2 & D3 & D4 & D5 & D6 & D7 & D8 & D9 & _).
  apply Hdig in D0, D1, D2, D3, D4, D5, D6, D7, D8, D9.
  unfold grouped, slice, substring, remove_all.
  cbn [firstn skipn app lit Nat.sub filter].
  now rewrite D0, D1, D2, D3, D4, D5, D6, D7, D8, D9, Hsp.
Qed.

Lemma digits_of_cleaned (p : jsstring) :
  remove_all (fun c => negb (is_digit c)) (remove_all separator p)
  = remove_all (fun c => negb (is_digit c)) p.
Proof.
  unfold remove_all. apply filter_through. intros x Hx.
  apply negb_true_iff in Hx. apply negb_false_iff in Hx.
  apply kept_not_separator, kept_digit_or_plus. now left.
Qed.

Lemma digits_of_digits (ds : jsstring) :
  forallb is_digit ds = true ->
  remove_all (fun c => negb (is_digit c)) ds = ds.
Proof.
  intros H. apply filter_all. revert H. apply forallb_impl.
  intros x ->. reflexivity.
Qed.

(** Displaying an accepted number leaves what validation and formatting
    read of it unchanged. *)
Lemma display_of_valid (p : jsstring) :
  isValidSriLankanMobile (Some p) = true ->
  formatPhoneForDisplay (Some p) = p \/
  exists c, formatPhoneForDisplay (Some p) = grouped c
            /\ List.length c = 10 /\ forallb is_digit c = true
            /\ remove_all separator p = c.
Proof.
  intros H. destruct (valid_shape p H) as (ds & Hl & Hd & Hshape).
  destruct p as [|c0 p0]; [discriminate|].
  rewrite display_unfold. cbv zeta.
  set (cl := remove_all (fun c => negb (is_digit c)) (c0 :: p0)).
  destruct ((List.length cl =? 10)%nat && startsWith cl (lit "0")) eqn:E;
    [|now left].
  right. exists cl. split; [reflexivity|].
  apply andb_true_iff in E. destruct E as [El _]. apply Nat.eqb_eq in El.
  assert (Hcl : cl = remove_all (fun c => negb (is_digit c))
                       (remove_all separator (c0 :: p0))).
  { unfold cl. symmetry. apply digits_of_cleaned. }
  assert (Hdd : remove_all (fun c => negb (is_digit c)) ds = ds)
    by now apply digits_of_digits.
  destruct Hshape as [Hs | [Hs | Hs]]; rewrite Hs in Hcl.
  - change (remove_all (fun c => negb (is_digit c)) (lit "07" ++ ds))
      with (lit "07" ++ remove_all (fun c => negb (is_digit c)) ds) in Hcl.
    rewrite Hdd in Hcl.
    split; [exact El|]. split.
    + rewrite Hcl. cbn [lit app forallb]. now rewrite Hd.
    + now rewrite Hs, Hcl.
  - exfalso.
    change (remove_all (fun c => negb (is_digit c)) (lit "+947" ++ ds))
      with (lit "947" ++ remove_all (fun c => negb (is_digit c)) ds) in Hcl.
    rewrite Hdd in Hcl. rewrite Hcl, length_app, Hl in El. discriminate El.
  - exfalso.
    change (remove_all (fun c => negb (is_digit c)) (lit "947" ++ ds))
      with (lit "947" ++ remove_all (fun c => negb (is_digit c)) ds) in Hcl.
    rewrite Hdd in Hcl. rewrite Hcl, length_app, Hl in El. discriminate El.
Qed.

End DisplayFacts.

(** X8: [formatPhoneForDisplay] never changes the digits of a number: the
    digits of the displayed string are the digits of the input (none for the
    placeholder shown for an empty input). *)
Theorem display_keeps_the_digits (x : jsstring) :
  remove_all (fun c => negb (is_digit c)) (formatPhoneForDisplay (Some x))
  = remove_all (fun c => negb (is_digit c)) x.
Proof.
  destruct x as [|c p]; [reflexivity|].
  rewrite display_unfold. cbv zeta.
  set (cl := remove_all (fun c0 => negb (is_digit c0)) (c :: p)).
  destruct ((List.length cl =? 10)%nat && startsWith cl (lit "0")) eqn:E;
    [|reflexivity].
  apply andb_true_iff in E. destruct E as [El _]. apply Nat.eqb_eq in El.
  apply digits_of_grouped; [exact El|].
  unfold cl, remove_all.
  apply forallb_impl with (f := fun c0 => negb (negb (is_digit c0))).
  - intros x. now rewrite negb_involutive.
  - apply forallb_filter_self.
Qed.

(** X9: the displayed form of an accepted number is accepted too, and has
    the same canonical form. *)
Theorem display_of_valid_number (p : jsstring) :
  isValidSriLankanMobile (Some p) = true ->
  isValidSriLankanMobile (Some (formatPhoneForDisplay (Some p))) = true /\
  formatPhoneForWhatsApp (Some (formatPhoneForDisplay (Some p)))
  = formatPhoneForWhatsApp (Some p).
Proof.
  intros H. destruct (display_of_valid p H) as [-> | (c & -> & Hl & Hd & Hc)].
  { now split. }
  assert (Hsep : remove_all separator (grouped c) = c).
  { apply ungroup; try assumption; [reflexivity|].
    intros x Hx. apply negb_true_iff, kept_not_separator, kept_digit_or_plus.
    now left. }
  assert (Hkept : remove_all not_digit_or_plus (grouped c) = c).
  { apply ungroup; try assumption; [reflexivity|].
    intros x Hx. apply negb_true_iff, kept_digit_or_plus. now left. }
  assert (Hkp : remove_all not_digit_or_plus p = c).
  { rewrite <- Hc. unfold remove_all.
    rewrite <- (filter_through (fun x => negb (not_digit_or_plus x))
                  (fun x => negb (separator x)) p kept_not_separator).
    fold (remove_all separator p). rewrite Hc. apply filter_all.
    revert Hd. apply forallb_impl. intros x Hx. apply kept_digit_or_plus.
    now left. }
  split.
  - rewrite <- H. apply valid_by_cleaned. now rewrite Hsep, Hc.
  - destruct (digits_of_grouped c Hl Hd) as (_ & _ & a & g & Hg).
    destruct p as [|c0 p0]; [discriminate|].
    rewrite Hg, !format_unfold, <- Hg. now rewrite Hkept, Hkp.
Qed.

Lemma display_of_valid_number_witness :
  isValidSriLankanMobile
    (Some (formatPhoneForDisplay (Some (lit "077-1234567")))) = true /\
  formatPhoneForWhatsApp (Some (formatPhoneForDisplay (Some (lit "077-1234567"))))
  = formatPhoneForWhatsApp (Some (lit "077-1234567")).
Proof.
  apply (@display_of_valid_number (lit "077-1234567")). reflexivity.
Defined.

(** ** Further properties of scoring and filtering *)

Section ScoreFacts.

Lemma rating_gt_mono (q q' b : Q) :
  (q <= q')%Q -> rating_gt (Some q) b = true -> rating_gt (Some q') b = true.
Proof.
  intros Hle H. apply rating_gt_spec in H. apply rating_gt_spec.
  eapply Qlt_le_trans; eassumption.
Qed.

Lemma score_hot_iff (count : option Z) (rating : option Q) :
  calculateLeadScore count rating = Hot <->
  exists n q, count = Some n /\ rating = Some q /\ (100 < n)%Z /\ (4 # 1 < q)%Q.
Proof.
  unfold calculateLeadScore. split.
  - destruct count as [n|]; [|discriminate]. simpl.
    destruct (100 <? n)%Z eqn:E; simpl.
    + destruct rating as [q|]; simpl.
      * destruct (negb (Qle_bool q (4 # 1))) eqn:Eq.
        -- intros _. exists n, q. apply Z.ltb_lt in E.
           repeat split; try assumption. now apply rating_gt_spec.
        -- destruct (50 <? n)%Z; discriminate.
      * destruct (50 <? n)%Z; discriminate.
    + destruct (50 <? n)%Z; discriminate.
  - intros (n & q & -> & -> & Hn & Hq).
    apply Z.ltb_lt in Hn. apply rating_gt_spec in Hq. simpl count_gt.
    now rewrite Hn, Hq.
Qed.

Lemma score_cold_iff (n : Z) (rating : option Q) :
  calculateLeadScore (Some n) rating = Cold <-> (n <= 50)%Z.
Proof.
  unfold calculateLeadScore, count_gt.
  destruct (Z.ltb_spec 100 n), (Z.ltb_spec 50 n),
    (rating_gt rating (4 # 1)%Q); simpl;
    split; intros; try discriminate; try reflexivity; lia.
Qed.

Lemma StronglySorted_on (A : Type) (R R' : A -> A -> Prop) (P : A -> Prop)
    (l : list A) :
  (forall a b, P a -> P b -> R a b -> R' a b) ->
  Forall P l -> StronglySorted R l -> StronglySorted R' l.
Proof.
  intros HR HP Hs. induction Hs as [|a l Hs IH Ha]; [constructor|].
  inversion HP as [|? ? Pa Pl]; subst. constructor; [now apply IH|].
  rewrite Forall_forall in *. intros b Hb. apply HR; auto.
Qed.

End ScoreFacts.

(** X10: more reviews or a better rating never lower the tier, and up to
    100 reviews the rating plays no part. *)
Theorem score_is_monotone :
  (forall n m rating, (n <= m)%Z ->
     rank (calculateLeadScore (Some n) rating)
     <= rank (calculateLeadScore (Some m) rating)) /\
  (forall count q q', (q <= q')%Q ->
     rank (calculateLeadScore count (Some q))
     <= rank (calculateLeadScore count (Some q'))) /\
  (forall n rating rating', (n <= 100)%Z ->
     calculateLeadScore (Some n) rating = calculateLeadScore (Some n) rating').
Proof.
  split; [|split].
  - intros n m rating Hle. unfold calculateLeadScore, count_gt.
    destruct (Z.ltb_spec 100 n), (Z.ltb_spec 100 m), (Z.ltb_spec 50 n),
      (Z.ltb_spec 50 m), (rating_gt rating (4 # 1)%Q); simpl; lia.
  - intros count q q' Hle. unfold calculateLeadScore.
    destruct (rating_gt (Some q) (4 # 1)%Q) eqn:E.
    + now rewrite (rating_gt_mono (4 # 1)%Q Hle E).
    + rewrite andb_false_r.
      destruct (count_gt count 100 && rating_gt (Some q') (4 # 1)%Q),
        (count_gt count 50); simpl; lia.
  - intros n rating rating' Hn. unfold calculateLeadScore, count_gt.
    destruct (Z.ltb_spec 100 n); [lia|reflexivity].
Qed.

Lemma score_is_monotone_witness :
  rank (calculateLeadScore (Some 60%Z) (Some (9 # 2)%Q))
  <= rank (calculateLeadScore (Some 150%Z) (Some (9 # 2)%Q)) /\
  calculateLeadScore (Some 80%Z) (Some (3 # 1)%Q)
  = calculateLeadScore (Some 80%Z) None.
Proof.
  destruct score_is_monotone as (Hcount & _ & Hrating). split.
  - apply Hcount. discriminate.
  - apply Hrating. discriminate.
Defined.

(** X11: the badge of a computed tier is never the Unknown one, and it glows
    exactly for more than 100 reviews with a rating above 4.0; a lead without
    a score gets the Unknown badge. *)
Theorem badge_of_computed_score (count : option Z) (rating : option Q) :
  text (getLeadBadgeStyle
          (Some (scoreString (calculateLeadScore count rating))))
  <> lit "Unknown" /\
  (glow (getLeadBadgeStyle
           (Some (scoreString (calculateLeadScore count rating)))) = true
   <-> exists n q, count = Some n /\ rating = Some q
                   /\ (100 < n)%Z /\ (4 # 1 < q)%Q) /\
  text (getLeadBadgeStyle None) = lit "Unknown".
Proof.
  rewrite <- score_hot_iff.
  destruct (calculateLeadScore count rating); simpl;
    (split; [discriminate|]); (split; [|reflexivity]);
    split; (discriminate || reflexivity).
Qed.

(** X12: in the output of [filterSuitableLeads] the Cold leads come last:
    no Cold lead is followed by a Warm or Hot one. *)
Theorem cold_leads_come_last (places : Arg) :
  StronglySorted cold_last (filterSuitableLeads places).
Proof.
  apply StronglySorted_on
    with (R := descending)
         (P := fun lead => In lead (filterSuitableLeads places)).
  - intros a b Ha Hb Hab.
    apply In_filterSuitableLeads in Ha, Hb.
    destruct Ha as (pa & _ & Hsa & ->), Hb as (pb & _ & Hsb & ->).
    destruct (count_of_suitable pa Hsa) as (n & Hn & Hn10).
    destruct (count_of_suitable pb Hsb) as (m & Hm & Hm10).
    unfold cold_last, descending, reviewCount, or_zero in *. simpl in *.
    rewrite Hn, Hm in *. rewrite !score_cold_iff.
    destruct (Z.eqb_spec n 0), (Z.eqb_spec m 0); lia.
  - apply Forall_forall. auto.
  - rewrite filterSuitableLeads_unfold.
    apply (@sort_sorted _ byRatingCount reviewCount counted byRatingCount_keys).
    apply survivors_counted.
Qed.

(** X13: whether a place is kept does not depend on the other places:
    the leads of two batches put together are the leads of each batch, up
    to the order. *)
Theorem leads_of_joined_batches (first second : list Place.t) :
  Permutation (filterSuitableLeads (Array (first ++ second)))
              (filterSuitableLeads (Array first)
               ++ filterSuitableLeads (Array second)).
Proof.
  rewrite !filterSuitableLeads_unfold. cbn [elements].
  rewrite !sort_perm, filter_app, map_app. reflexivity.
Qed.

(** ** encodeURIComponent and the WhatsApp link *)

Section UriFacts.

Lemma hex_safe (n : N) : (n < 16)%N -> unreserved (hex n) = true.
Proof.
  intros H. unfold hex, unreserved, is_alpha, is_digit.
  destruct (N.ltb_spec n 10).
  - assert (E : ((48 <=? 48 + n) && (48 + n <=? 57))%N = true).
    { apply andb_true_iff. split; apply N.leb_le; lia. }
    now rewrite E, orb_true_r.
  - assert (E : ((65 <=? 55 + n) && (55 + n <=? 90))%N = true).
    { apply andb_true_iff. split; apply N.leb_le; lia. }
    now rewrite E.
Qed.

Lemma escape_safe (octet : N) :
  (octet < 256)%N -> forallb url_safe (escape octet) = true.
Proof.
  intros H. unfold escape. cbn [forallb]. unfold url_safe at 2 3.
  rewrite !hex_safe; [reflexivity| |].
  - apply N.mod_upper_bound. discriminate.
  - apply N.Div0.div_lt_upper_bound. lia.
Qed.

Lemma utf8_octets (cp : N) :
  (cp < 2097152)%N -> Forall (fun o => (o < 256)%N) (utf8 cp).
Proof.
  intros H. unfold utf8.
  pose proof (N.mod_upper_bound cp 64) as M0.
  pose proof (N.mod_upper_bound (cp / 64) 64) as M1.
  pose proof (N.mod_upper_bound (cp / 4096) 64) as M2.
  destruct (N.ltb_spec cp 128); [repeat constructor; lia|].
  destruct (N.ltb_spec cp 2048).
  { assert (cp / 64 < 32)%N by (apply N.Div0.div_lt_upper_bound; lia).
    repeat constructor; lia. }
  destruct (N.ltb_spec cp 65536).
  { assert (cp / 4096 < 16)%N by (apply N.Div0.div_lt_upper_bound; lia).
    repeat constructor; lia. }
  assert (cp / 262144 < 8)%N by (apply N.Div0.div_lt_upper_bound; lia).
  repeat constructor; lia.
Qed.

Lemma escapes_safe (octets : list N) :
  Forall (fun o => (o < 256)%N) octets ->
  forallb url_safe (flat_map escape octets) = true.
Proof.
  induction 1 as [|o l Ho Hl IH]; [reflexivity|].
  cbn [flat_map]. rewrite forallb_app, IH, escape_safe by assumption.
  reflexivity.
Qed.

Lemma pair_point_bound (hi lo : char) :
  is_leading hi = true -> is_trailing lo = true ->
  (pair_point hi lo < 2097152)%N.
Proof.
  unfold is_leading, is_trailing, pair_point.
  rewrite !andb_true_iff, !N.leb_le. lia.
Qed.

Lemma encode_safe_upto (n : nat) :
  forall s out, List.length s <= n -> code_units s ->
    encodeURIComponent s = Some out -> forallb url_safe out = true.
Proof.
  induction n as [|n IH]; intros s out Hn Hs.
  - destruct s; [|simpl in Hn; lia]. intros [= <-]. reflexivity.
  - destruct s as [|c t]; [intros [= <-]; reflexivity|].
    simpl in Hn. inversion Hs as [|? ? Hc Ht]; subst.
    cbn [encodeURIComponent].
    destruct (unreserved c) eqn:Eu.
    { destruct (encodeURIComponent t) as [o|] eqn:Et; [|discriminate].
      intros [= <-]. cbn [forallb]. unfold url_safe at 1. rewrite Eu.
      apply (IH t o); [lia|assumption|assumption]. }
    destruct (is_trailing c); [discriminate|].
    destruct (is_leading c) eqn:El.
    { destruct t as [|lo t']; [discriminate|].
      destruct (is_trailing lo) eqn:Etr; [|discriminate].
      destruct (encodeURIComponent t') as [o|] eqn:Et; [|discriminate].
      intros [= <-]. rewrite forallb_app.
      rewrite escapes_safe
        by (apply utf8_octets, pair_point_bound; assumption).
      inversion Ht; subst. simpl in Hn.
      apply (IH t' o); [lia|assumption|assumption]. }
    destruct (encodeURIComponent t) as [o|] eqn:Et; [|discriminate].
    intros [= <-]. rewrite forallb_app.
    rewrite escapes_safe by (apply utf8_octets; lia).
    apply (IH t o); [lia|assumption|assumption].
Qed.

Lemma encode_safe (s out : jsstring) :
  code_units s -> encodeURIComponent s = Some out ->
  forallb url_safe out = true.
Proof. apply (encode_safe_upto (n := List.length s)). lia. Qed.

Lemma encode_total (s : jsstring) :
  forallb not_surrogate s = true -> exists out, encodeURIComponent s = Some out.
Proof.
  induction s as [|c t IH]; [now exists []|].
  cbn [forallb]. intros H. apply andb_true_iff in H. destruct H as [Hc Ht].
  destruct (IH Ht) as (o & Ho). cbn [encodeURIComponent]. rewrite Ho.
  unfold not_surrogate in Hc. apply andb_true_iff in Hc.
  destruct Hc as [Hl Htr]. apply negb_true_iff in Hl, Htr. rewrite Hl, Htr.
  destruct (unreserved c); eexists; reflexivity.
Qed.

Lemma encode_unreserved (s : jsstring) :
  forallb unreserved s = true -> encodeURIComponent s = Some s.
Proof.
  induction s as [|c t IH]; [reflexivity|].
  cbn [forallb]. intros H. apply andb_true_iff in H. destruct H as [Hc Ht].
  cbn [encodeURIComponent]. now rewrite Hc, (IH Ht).
Qed.

End UriFacts.

(** X14: what [encodeURIComponent] returns holds only unreserved
    characters (letters, digits, [- _ . ! ~ * ' ( )]) and percent signs: no
    space, [&], [#], [?], [=], [/] or [+] of the input is left in it. *)
Theorem encoded_text_is_url_safe (s out : jsstring) :
  code_units s -> encodeURIComponent s = Some out ->
  forallb url_safe out = true /\
  forall c, In c (lit " &#?=/+") -> ~ In c out.
Proof.
  intros Hs He. pose proof (encode_safe Hs He) as Hsafe.
  split; [exact Hsafe|]. intros c Hc Hin.
  rewrite forallb_forall in Hsafe. apply Hsafe in Hin.
  cbn [lit In] in Hc.
  repeat (destruct Hc as [<- | Hc]; [discriminate Hin|]). exact Hc.
Qed.

Lemma encoded_text_is_url_safe_witness :
  forallb url_safe (lit "Hi%20there%3F%20a%26b") = true /\
  forall c, In c (lit " &#?=/+") -> ~ In c (lit "Hi%20there%3F%20a%26b").
Proof.
  apply (@encoded_text_is_url_safe (lit "Hi there? a&b")).
  - repeat constructor.
  - reflexivity.
Defined.

(** X15: [encodeURIComponent] leaves a string of unreserved characters as
    it is, and it raises only on surrogates: a string without surrogate code
    units is always encoded. *)
Theorem encoding_of_plain_text :
  (forall s, forallb unreserved s = true -> encodeURIComponent s = Some s) /\
  (forall s, forallb not_surrogate s = true ->
             exists out, encodeURIComponent s = Some out).
Proof. split; [exact encode_unreserved | exact encode_total]. Qed.

Lemma encoding_of_plain_text_witness :
  encodeURIComponent (lit "Hello") = Some (lit "Hello") /\
  exists out, encodeURIComponent (lit "50% off & more") = Some out.
Proof.
  split.
  - apply (proj1 encoding_of_plain_text). reflexivity.
  - apply (proj2 encoding_of_plain_text). reflexivity.
Defined.

(** X16: without a message, or with an empty one, [getWhatsAppUrl] returns
    [https://wa.me/] and the formatted phone.  With a non-empty message it
    returns that link, [?text=] and [encodeURIComponent] of this very
    message, and raises when the encoding raises; the encoded message holds
    only unreserved characters and percent signs. *)
Theorem whatsapp_url_shape (phone message : option jsstring) :
  (forall m, message = Some m -> code_units m) ->
  (truthy message = false ->
   getWhatsAppUrl phone message
   = Some (lit "https://wa.me/" ++ formatPhoneForWhatsApp phone)) /\
  (forall m, message = Some m -> m <> [] ->
     getWhatsAppUrl phone message
     = option_map
         (fun text => lit "https://wa.me/" ++ formatPhoneForWhatsApp phone
                      ++ lit "?text=" ++ text)
         (encodeURIComponent m)
     /\ forall text, encodeURIComponent m = Some text ->
                     forallb url_safe text = true).
Proof.
  intros Hm. split.
  - intros Hf. unfold getWhatsAppUrl.
    destruct message as [[|c m]|]; [reflexivity|discriminate Hf|reflexivity].
  - intros m -> Hne. destruct m as [|c m]; [contradiction|]. split.
    + unfold getWhatsAppUrl. cbn [truthy].
      destruct (encodeURIComponent (c :: m)); reflexivity.
    + intros text E. exact (encode_safe (Hm _ eq_refl) E).
Qed.

Lemma whatsapp_url_shape_witness :
  getWhatsAppUrl (Some (lit "0771234567")) (Some (lit "Hi there? a&b"))
  = option_map
      (fun text => lit "https://wa.me/"
                   ++ formatPhoneForWhatsApp (Some (lit "0771234567"))
                   ++ lit "?text=" ++ text)
      (encodeURIComponent (lit "Hi there? a&b"))
  /\ forall text, encodeURIComponent (lit "Hi there? a&b") = Some text ->
                  forallb url_safe text = true.
Proof.
  apply (proj2 (@whatsapp_url_shape (Some (lit "0771234567"))
                  (Some (lit "Hi there? a&b"))
                  ltac:(intros m [= <-]; repeat constructor))
           (lit "Hi there? a&b")).
  - reflexivity.
  - discriminate.
Defined.

(** X17: for every lead [filterSuitableLeads] returns, the link built
    from its [formattedWhatsapp] is [https://wa.me/947] and eight digits:
    formatting the canonical number again changes nothing. *)
Theorem lead_link_is_canonical (places : Arg) (lead : Lead.t) :
  In lead (filterSuitableLeads places) ->
  exists ds, List.length ds = 8 /\ forallb is_digit ds = true /\
    Lead.formattedWhatsapp lead = lit "947" ++ ds /\
    getWhatsAppUrl (Some (Lead.formattedWhatsapp lead)) None
    = Some (lit "https://wa.me/947" ++ ds).
Proof.
  intros H. apply In_filterSuitableLeads in H.
  destruct H as (place & _ & Hs & ->).
  apply suitable_spec in Hs. destruct Hs as (_ & _ & _ & Hv).
  destruct (selectedPhone place) as [phone|] eqn:Hsel; [|discriminate].
  destruct (format_of_valid phone Hv) as (ds & Hl & Hd & Hf).
  exists ds. split; [assumption|]. split; [assumption|].
  assert (Hfw : Lead.formattedWhatsapp (enrich place) = lit "947" ++ ds).
  { simpl. fold (selectedPhone place). now rewrite Hsel. }
  split; [exact Hfw|]. rewrite Hfw. unfold getWhatsAppUrl. cbn [truthy].
  change (lit "947" ++ ds) with (lit "94" ++ (code "7" :: ds)).
  rewrite format_fixed_on_94; [reflexivity|].
  cbn [forallb]. revert Hd. apply forallb_impl. intros x Hx.
  unfold digit_or_plus. now rewrite Hx.
Qed.

Lemma lead_link_is_canonical_witness :
  exists ds, List.length ds = 8 /\ forallb is_digit ds = true /\
    Lead.formattedWhatsapp (enrich international_only) = lit "947" ++ ds /\
    getWhatsAppUrl (Some (Lead.formattedWhatsapp (enrich international_only))) None
    = Some (lit "https://wa.me/947" ++ ds).
Proof.
  apply (@lead_link_is_canonical (Array [international_only])).
  left. reflexivity.
Defined.

(** X18: the lead card reads the national number only.  For a returned lead
    with a national number, its test link is [https://wa.me/] followed by the
    lead's [formattedWhatsapp]; for a returned lead without one (it was
    accepted on its international number) the test link carries no number
    and the phone line shows the placeholder. *)
Theorem lead_card_reads_national_number (places : Arg) (lead : Lead.t) :
  In lead (filterSuitableLeads places) ->
  (truthy (Lead.nationalPhoneNumber lead) = true ->
   LeadCard.handleTestWhatsApp lead
   = Some (lit "https://wa.me/" ++ Lead.formattedWhatsapp lead)) /\
  (truthy (Lead.nationalPhoneNumber lead) = false ->
   LeadCard.handleTestWhatsApp lead = Some (lit "https://wa.me/") /\
   LeadCard.phoneLine lead = lit "No phone" /\
   Lead.formattedWhatsapp lead <> []).
Proof.
  intros H. apply In_filterSuitableLeads in H.
  destruct H as (place & _ & Hs & ->).
  apply suitable_spec in Hs. destruct Hs as (_ & _ & _ & Hv).
  unfold LeadCard.handleTestWhatsApp, LeadCard.phoneLine, getWhatsAppUrl.
  cbn [truthy Lead.nationalPhoneNumber Lead.formattedWhatsapp enrich].
  fold (selectedPhone place). split.
  - intros Hn. unfold selectedPhone, Js.or. now rewrite Hn.
  - intros Hn. split; [|split].
    + now destruct (Place.nationalPhoneNumber place) as [[|c p]|].
    + now destruct (Place.nationalPhoneNumber place) as [[|c p]|].
    + destruct (selectedPhone place) as [phone|]; [|discriminate].
      destruct (format_of_valid phone Hv) as (ds & _ & _ & ->). discriminate.
Qed.

Lemma lead_card_reads_national_number_witness :
  (truthy (Lead.nationalPhoneNumber (enrich international_only)) = true ->
   LeadCard.handleTestWhatsApp (enrich international_only)
   = Some (lit "https://wa.me/"
           ++ Lead.formattedWhatsapp (enrich international_only))) /\
  (truthy (Lead.nationalPhoneNumber (enrich international_only)) = false ->
   LeadCard.handleTestWhatsApp (enrich international_only)
   = Some (lit "https://wa.me/") /\
   LeadCard.phoneLine (enrich international_only) = lit "No phone" /\
   Lead.formattedWhatsapp (enrich international_only) <> []).
Proof.
  apply (@lead_card_reads_national_number (Array [international_only])).
  left. reflexivity.
Defined.

(** ** Category labels, status colours and outreach *)

Section CategoryFacts.

Lemma eqb_eq (s t : jsstring) : Js.eqb s t = true <-> s = t.
Proof.
  revert t. induction s as [|a s IH]; intros [|b t]; simpl;
    try (split; [discriminate|discriminate]); [tauto|].
  rewrite andb_true_iff, IH. unfold char_eqb. rewrite N.eqb_eq.
  split; [intros [-> ->]; reflexivity | intros [= -> ->]; now split].
Qed.

Lemma includes_In (l : list jsstring) (s : jsstring) :
  includes l s = true <-> In s l.
Proof.
  unfold includes. rewrite existsb_exists. split.
  - intros (x & Hx & E). apply eqb_eq in E. now subst.
  - intros H. exists s. split; [assumption|]. now apply eqb_eq.
Qed.

Lemma find_first (A : Type) (f : A -> bool) (before after : list A) (x : A) :
  forallb (fun y => negb (f y)) before = true -> f x = true ->
  find f (before ++ x :: after) = Some x.
Proof.
  intros Hb Hx. induction before as [|y l IH]; simpl.
  - now rewrite Hx.
  - cbn [forallb] in Hb. apply andb_true_iff in Hb. destruct Hb as [Hy Hl].
    apply negb_true_iff in Hy. rewrite Hy. now apply IH.
Qed.

Lemma split_nonempty (sep : char) (t : jsstring) : split sep t <> [].
Proof.
  destruct t as [|c t]; simpl; [discriminate|].
  destruct (char_eqb c sep); [discriminate|].
  destruct (split sep t); discriminate.
Qed.

Lemma join_cons_char (sep : jsstring) (c : char) (w : jsstring)
    (ws : list jsstring) :
  join sep ((c :: w) :: ws) = c :: join sep (w :: ws).
Proof. destruct ws; reflexivity. Qed.

(** Splitting and joining again with the separator gives the string back. *)
Lemma split_join (sep : char) (t : jsstring) :
  join [sep] (split sep t) = t.
Proof.
  induction t as [|c t IH]; [reflexivity|]. cbn [split].
  pose proof (split_nonempty sep t) as Hne.
  destruct (split sep t) as [|w ws]; [contradiction|].
  destruct (char_eqb c sep) eqn:E.
  - apply N.eqb_eq in E. subst c. cbn [join app]. now rewrite <- IH.
  - rewrite join_cons_char. now rewrite IH.
Qed.

Lemma split_words (sep : char) (t w : jsstring) (x : char) :
  In w (split sep t) -> In x w -> In x t /\ x <> sep.
Proof.
  revert w. induction t as [|c t IH]; intros w; cbn [split].
  - intros [<- | []] [].
  - pose proof (split_nonempty sep t) as Hne.
    destruct (split sep t) as [|w0 ws]; [contradiction|].
    destruct (char_eqb c sep) eqn:E.
    + intros [<- | Hw] Hx; [destruct Hx|].
      destruct (IH w Hw Hx). split; [now right|assumption].
    + intros [<- | Hw] Hx.
      * destruct Hx as [<- | Hx].
        -- split; [now left|]. intros ->. unfold char_eqb in E.
           now rewrite N.eqb_refl in E.
        -- destruct (IH w0 (or_introl eq_refl) Hx). split; [now right|assumption].
      * destruct (IH w (or_intror Hw) Hx). split; [now right|assumption].
Qed.

Lemma join_length (s s' : jsstring) (ws ws' : list jsstring) :
  List.length s = List.length s' ->
  Forall2 (fun a b => List.length a = List.length b) ws ws' ->
  List.length (join s ws) = List.length (join s' ws').
Proof.
  intros Hs H. induction H as [|a b l l' Hab Hl IH]; [reflexivity|].
  destruct Hl as [|a2 b2 l2 l2' Hab2 Hl2]; [exact Hab|].
  change (join s (a :: a2 :: l2)) with (a ++ s ++ join s (a2 :: l2)).
  change (join s' (b :: b2 :: l2')) with (b ++ s' ++ join s' (b2 :: l2')).
  rewrite !length_app, Hab, Hs, IH. reflexivity.
Qed.

Lemma join_In (s : jsstring) (ws : list jsstring) (x : char) :
  In x (join s ws) -> In x s \/ exists w, In w ws /\ In x w.
Proof.
  induction ws as [|w ws IH]; [intros []|].
  destruct ws as [|w2 ws2].
  - intros H. right. exists w. split; [now left|exact H].
  - change (join s (w :: w2 :: ws2)) with (w ++ s ++ join s (w2 :: ws2)).
    rewrite !in_app_iff. intros [H | [H | H]].
    + right. exists w. split; [now left|exact H].
    + now left.
    + destruct (IH H) as [Hs | (w' & Hw' & Hx)]; [now left|].
      right. exists w'. split; [now right|exact Hx].
Qed.

Variable toUpperCase : jsstring -> jsstring.
Hypothesis upper : upper_on_ascii toUpperCase.

Lemma capitalize_ascii (w : jsstring) :
  forallb is_ascii w = true ->
  capitalize toUpperCase w = capitalize asciiUpperCase w.
Proof.
  destruct upper as [Hnil Hchar]. unfold capitalize, charAt0.
  destruct w as [|c w]; cbn [firstn forallb]; [now rewrite Hnil|].
  intros H. apply andb_true_iff in H. destruct H as [Hc _].
  apply N.ltb_lt in Hc. f_equal. exact (Hchar c Hc).
Qed.

Lemma titleCase_ascii (t : jsstring) :
  forallb is_ascii t = true ->
  titleCase toUpperCase t = titleCase asciiUpperCase t.
Proof.
  intros H. unfold titleCase. f_equal. apply map_ext_in. intros w Hw.
  apply capitalize_ascii. apply forallb_forall. intros x Hx.
  destruct (@split_words _ _ _ _ Hw Hx) as [Hin _].
  rewrite forallb_forall in H. now apply H.
Qed.

Lemma capitalize_length (w : jsstring) :
  List.length (capitalize asciiUpperCase w) = List.length w.
Proof. now destruct w. Qed.

Lemma ascii_upper_underscore (c : char) :
  ascii_upper c = code "_" -> c = code "_".
Proof.
  unfold ascii_upper. change (code "_") with 95%N.
  destruct ((97 <=? c) && (c <=? 122))%N eqn:E; [|trivial].
  apply andb_true_iff in E. destruct E as [E1 E2].
  apply N.leb_le in E1, E2. lia.
Qed.

End CategoryFacts.

(** X19: when a record has a type of the priority list, its label is the
    title case of the first such type in the record's own order, whatever
    comes after it, and it is the label that stands at the same place in the
    list of the twenty labels ([beauty_salon] gives [Beauty Salon]). *)
Theorem category_of_first_priority_type
    (toUpperCase : jsstring -> jsstring)
    (before after : list jsstring) (type : jsstring) :
  upper_on_ascii toUpperCase ->
  forallb (fun t => negb (includes priorityTypes t)) before = true ->
  In type priorityTypes ->
  getPrimaryCategory toUpperCase (Some (before ++ type :: after))
  = titleCase toUpperCase type /\
  In (type, titleCase toUpperCase type) (combine priorityTypes priorityLabels).
Proof.
  intros Hup Hb Ht.
  assert (Hfind : find (includes priorityTypes) (before ++ type :: after)
                  = Some type).
  { apply find_first; [assumption|]. now apply includes_In. }
  assert (Hascii : forallb is_ascii type = true).
  { cbv [priorityTypes map] in Ht. cbn [In] in Ht.
    repeat (destruct Ht as [<- | Ht]; [reflexivity|]). destruct Ht. }
  split.
  - unfold getPrimaryCategory.
    destruct (before ++ type :: after) as [|first rest] eqn:E.
    { destruct before; discriminate E. }
    rewrite Hfind.
    assert (Htr : truthy (Some type) = true).
    { cbv [priorityTypes map] in Ht. cbn [In] in Ht.
      repeat (destruct Ht as [<- | Ht]; [reflexivity|]). destruct Ht. }
    now rewrite Htr.
  - rewrite (titleCase_ascii Hup _ Hascii).
    cbv [priorityTypes map] in Ht. cbn [In] in Ht.
    repeat (destruct Ht as [<- | Ht]; [vm_compute; tauto|]). destruct Ht.
Qed.

Lemma category_of_first_priority_type_witness :
  getPrimaryCategory asciiUpperCase
    (Some ([lit "point_of_interest"] ++ lit "beauty_salon" :: [lit "spa"]))
  = titleCase asciiUpperCase (lit "beauty_salon") /\
  In (lit "beauty_salon", titleCase asciiUpperCase (lit "beauty_salon"))
     (combine priorityTypes priorityLabels).
Proof.
  apply (@category_of_first_priority_type asciiUpperCase
           [lit "point_of_interest"] [lit "spa"] (lit "beauty_salon")).
  - split; [reflexivity|]. intros c Hc. reflexivity.
  - reflexivity.
  - vm_compute. tauto.
Defined.

(** X20: the title case of an ASCII type keeps its length and has no
    underscore left: every underscore became a space and the other
    characters are kept or put in upper case. *)
Theorem title_case_of_ascii_type
    (toUpperCase : jsstring -> jsstring) (type : jsstring) :
  upper_on_ascii toUpperCase ->
  forallb is_ascii type = true ->
  List.length (titleCase toUpperCase type) = List.length type /\
  ~ In (code "_") (titleCase toUpperCase type).
Proof.
  intros Hup Hascii. rewrite (titleCase_ascii Hup _ Hascii).
  unfold titleCase. split.
  - rewrite <- (split_join (code "_") type) at 2.
    apply join_length; [reflexivity|].
    induction (split (code "_") type) as [|w ws IH]; constructor;
      [apply capitalize_length|exact IH].
  - intros Hin. apply join_In in Hin.
    destruct Hin as [Hin | (w & Hw & Hx)].
    { cbn [lit In] in Hin. destruct Hin as [Hin | []]. discriminate Hin. }
    apply in_map_iff in Hw. destruct Hw as (w0 & <- & Hw0).
    assert (Hno : ~ In (code "_") w0).
    { intros H0. now destruct (@split_words _ _ _ _ Hw0 H0). }
    unfold capitalize, charAt0, asciiUpperCase in Hx.
    destruct w0 as [|c w0]; [destruct Hx|].
    cbn [firstn map app substring skipn] in Hx.
    destruct Hx as [Hx | Hx].
    + apply ascii_upper_underscore in Hx. apply Hno. now left.
    + apply Hno. now right.
Qed.

Lemma title_case_of_ascii_type_witness :
  List.length (titleCase asciiUpperCase (lit "meal_take_away"))
  = List.length (lit "meal_take_away") /\
  ~ In (code "_") (titleCase asciiUpperCase (lit "meal_take_away")).
Proof.
  apply (@title_case_of_ascii_type asciiUpperCase (lit "meal_take_away")).
  - split; [reflexivity|]. intros c Hc. reflexivity.
  - reflexivity.
Defined.

(** X21: [getStatusColor] gives every status of [LEAD_STATUSES] its own
    colour, always answers with a colour of that table, and shows an unknown
    or absent status in the colour of New. *)
Theorem status_colours :
  (forall entry, In entry LEAD_STATUSES ->
     getStatusColor (Some (value entry)) = color entry) /\
  (forall status, In (getStatusColor status) (map color LEAD_STATUSES)) /\
  (forall status,
     (forall entry, In entry LEAD_STATUSES -> Some (value entry) <> status) ->
     getStatusColor status = getStatusColor (Some (lit "New"))).
Proof.
  split; [|split].
  - intros entry H. cbv [LEAD_STATUSES] in H. cbn [In] in H.
    repeat (destruct H as [<- | H]; [reflexivity|]). destruct H.
  - intros status. unfold getStatusColor.
    destruct (find _ LEAD_STATUSES) as [entry|] eqn:E.
    + apply find_some in E. apply in_map. apply E.
    + left. reflexivity.
  - intros status H. unfold getStatusColor at 1.
    destruct (find _ LEAD_STATUSES) as [entry|] eqn:E; [|reflexivity].
    apply find_some in E. destruct E as [Hin Heq]. exfalso.
    apply (H entry Hin). destruct status as [s|]; [|discriminate].
    simpl in Heq. apply eqb_eq in Heq. now subst.
Qed.

Lemma status_colours_witness :
  getStatusColor (Some (lit "Contacted")) = lit "bg-purple-500" /\
  getStatusColor (Some (lit "contacted")) = getStatusColor (Some (lit "New")).
Proof.
  destruct status_colours as (Hown & _ & Hunknown). split.
  - apply (Hown {| value := lit "Contacted"; label := lit "Contacted";
                   color := lit "bg-purple-500" |}).
    right. right. left. reflexivity.
  - apply Hunknown. intros entry H. cbv [LEAD_STATUSES] in H. cbn [In] in H.
    repeat (destruct H as [<- | H]; [discriminate|]). destruct H.
Defined.

(** X22: when the link can be built and every awaited step of the image
    copy settles, by success or by failure, [handleWhatsAppCommunication]
    opens WhatsApp exactly once and as its last effect, with the link of the
    phone and the greeting; the link depends neither on the category nor on
    the copy.  When a step never settles the [finally] block is not reached
    and nothing is opened.  Nothing is opened either when building the link
    raises, which a business name without surrogate code units excludes. *)
Theorem outreach_opens_whatsapp_once_copy_settles
    (phone businessName category : option jsstring) (copy : Copy) :
  (forall url,
     getWhatsAppUrl phone (Some (outreachMessage businessName)) = Some url ->
     (settles copy = true ->
      exists before,
        handleWhatsAppCommunication phone businessName category copy
        = Finished (before
                    ++ [Open url (lit "_blank") (lit "noopener,noreferrer")])
        /\ forallb (fun e => negb (is_open e)) before = true) /\
     (settles copy = false ->
      exists effects,
        handleWhatsAppCommunication phone businessName category copy
        = Hangs effects
        /\ forallb (fun e => negb (is_open e)) effects = true)) /\
  (getWhatsAppUrl phone (Some (outreachMessage businessName)) = None ->
   handleWhatsAppCommunication phone businessName category copy = Raised) /\
  (forallb not_surrogate (interpolate businessName) = true ->
   exists url,
     getWhatsAppUrl phone (Some (outreachMessage businessName)) = Some url).
Proof.
  split; [|split].
  - intros url H. unfold handleWhatsAppCommunication. rewrite H.
    split; intros Hs; destruct copy; try discriminate Hs.
    + now exists [Fetch (lit "/sample-images/" ++ interpolate category
                         ++ lit ".png");
                  LogError (lit "Copy failed, proceeding to WhatsApp without image:")].
    + now exists [Fetch (lit "/sample-images/" ++ interpolate category
                         ++ lit ".png");
                  LogError (lit "Copy failed, proceeding to WhatsApp without image:")].
    + now exists [Fetch (lit "/sample-images/" ++ interpolate category
                         ++ lit ".png"); ClipboardWrite;
                  LogError (lit "Copy failed, proceeding to WhatsApp without image:")].
    + now exists [Fetch (lit "/sample-images/" ++ interpolate category
                         ++ lit ".png"); ClipboardWrite;
                  Log (lit "Image copied to clipboard!")].
    + eexists. split; reflexivity.
    + eexists. split; reflexivity.
    + eexists. split; reflexivity.
  - intros H. unfold handleWhatsAppCommunication. now rewrite H.
  - intros H. unfold getWhatsAppUrl.
    assert (Hm : forallb not_surrogate (outreachMessage businessName) = true).
    { unfold outreachMessage. rewrite !forallb_app, H. reflexivity. }
    destruct (encode_total _ Hm) as (out & Hout).
    assert (Ht : truthy (Some (outreachMessage businessName)) = true)
      by reflexivity.
    rewrite Ht, Hout. eexists. reflexivity.
Qed.

Lemma outreach_opens_whatsapp_once_copy_settles_witness :
  exists url before,
    getWhatsAppUrl (Some (lit "0771234567"))
      (Some (outreachMessage (Some (lit "Corner Bakery")))) = Some url /\
    handleWhatsAppCommunication (Some (lit "0771234567"))
      (Some (lit "Corner Bakery")) None WriteFails
    = Finished (before
                ++ [Open url (lit "_blank") (lit "noopener,noreferrer")]) /\
    forallb (fun e => negb (is_open e)) before = true.
Proof.
  destruct (outreach_opens_whatsapp_once_copy_settles
              (Some (lit "0771234567")) (Some (lit "Corner Bakery")) None
              WriteFails) as (Hopen & _ & Hurl).
  destruct (Hurl eq_refl) as (url & Hu).
  destruct (proj1 (Hopen url Hu) eq_refl) as (before & Hrun & Hno).
  exists url, before. split; [exact Hu|]. split; [exact Hrun|exact Hno].
Defined.

(** ** Further properties of the pagination and of the hook *)

Section HookFacts.

Lemma trimStart_nil (s : jsstring) :
  trimStart s = [] <-> forallb is_space s = true.
Proof.
  induction s as [|c t IH]; simpl; [tauto|].
  destruct (is_space c); simpl; [exact IH|].
  split; discriminate.
Qed.

Lemma trimStart_head (s : jsstring) (c : char) (t : jsstring) :
  trimStart s = c :: t -> is_space c = false.
Proof.
  induction s as [|a s IH]; simpl; [discriminate|].
  destruct (is_space a) eqn:E; [exact IH|].
  intros [= -> _]. exact E.
Qed.

(** [!query.trim()] holds exactly for a query of whitespace only. *)
Lemma trim_blank (s : jsstring) :
  is_empty (trim s) = true <-> forallb is_space s = true.
Proof.
  unfold trim. split.
  - intros H. destruct (trimStart s) as [|c t] eqn:E.
    { now apply trimStart_nil. }
    exfalso. apply trimStart_head in E.
    destruct (rev (trimStart (rev (c :: t)))) eqn:E2; [|discriminate].
    apply (f_equal (@rev char)) in E2. rewrite rev_involutive in E2.
    simpl rev at 2 in E2. apply trimStart_nil in E2.
    rewrite forallb_forall in E2.
    assert (Hin : In c (rev (c :: t))) by (apply in_rev; rewrite rev_involutive; now left).
    apply E2 in Hin. congruence.
  - intros H. apply trimStart_nil in H. rewrite H. reflexivity.
Qed.

Lemma not_blank (s : jsstring) :
  forallb is_space s = false -> is_empty (trim s) = false.
Proof.
  intros H. apply not_true_is_false. intros E. apply trim_blank in E.
  congruence.
Qed.

Lemma nonNull_length (A : Type) (l : list (option A)) :
  List.length (Hook.nonNull l) <= List.length l.
Proof.
  induction l as [|[a|] l IH]; simpl; lia.
Qed.

Lemma all_length (A : Type) (promises : list (Hook.Awaited A)) (l : list A) :
  Hook.all promises = Hook.Resolved l -> List.length l = List.length promises.
Proof.
  revert l. induction promises as [|p rest IH]; intros l; simpl.
  - intros [= <-]. reflexivity.
  - destruct p as [a|e|]; [|discriminate|].
    + destruct (Hook.all rest) as [l'|e|]; try discriminate.
      intros [= <-]. simpl. now rewrite (IH l' eq_refl).
    + destruct (Hook.all rest); discriminate.
Qed.

Lemma leads_length (l : list Place.t) :
  List.length (filterSuitableLeads (Array l)) <= List.length l.
Proof.
  rewrite filterSuitableLeads_unfold. cbn [elements].
  rewrite (Permutation_length (sort_perm byRatingCount _)), length_map.
  apply filter_length_le.
Qed.

(** What [trySearch] can resolve with. *)
Lemma trySearch_resolved (loaded : bool) (service : Hook.Service)
    (st st' : Hook.State) :
  Hook.trySearch loaded service st = Hook.Resolved st' ->
  exists allResults validResults,
    fetchAllPages (Hook.pages service) = Fulfilled allResults /\
    List.length validResults <= List.length allResults /\
    Hook.results st' = filterSuitableLeads (Array validResults) /\
    Hook.rawResultsCount st' = List.length validResults /\
    Hook.loading st' = Hook.loading st /\
    (Hook.results st' <> [] -> Hook.error st' = Hook.error st) /\
    (Hook.results st' = [] -> validResults = [] -> Hook.error st' = Hook.error st) /\
    (Hook.results st' = [] -> validResults <> [] ->
     Hook.error st'
     = Some (lit "Found " ++ decimal (List.length validResults)
             ++ lit " businesses, but none match our criteria (no website, mobile phone, 10+ reviews)")).
Proof.
  unfold Hook.trySearch, Hook.awaitPages.
  destruct loaded; [|discriminate]. cbn [negb].
  destruct (fetchAllPages (Hook.pages service)) as [|allResults|e];
    try discriminate.
  destruct (Hook.all _) as [detailed|e|] eqn:Eall; try discriminate.
  cbv zeta. set (valid := Hook.nonNull detailed).
  set (leads := filterSuitableLeads (Array valid)).
  assert (Hlen : List.length valid <= List.length allResults).
  { apply all_length in Eall. rewrite length_map in Eall. rewrite <- Eall.
    apply nonNull_length. }
  assert (Hleads : leads = filterSuitableLeads (Array valid)) by reflexivity.
  clearbody leads valid.
  destruct ((List.length leads =? 0)%nat && (0 <? List.length valid)%nat) eqn:E;
    intros [= <-]; exists allResults, valid;
    cbn [Hook.results Hook.error Hook.loading Hook.rawResultsCount
         Hook.setError Hook.setResults Hook.setRawResultsCount].
  - apply andb_true_iff in E. destruct E as [E1 E2].
    apply Nat.eqb_eq in E1. apply Nat.ltb_lt in E2.
    repeat split; try assumption; try reflexivity.
    + intros H. destruct leads; [contradiction|discriminate].
    + intros _ ->. simpl in E2. lia.
  - repeat split; try assumption; try reflexivity.
    intros Hl Hv. exfalso. rewrite Hl in E. simpl in E.
    destruct valid; [contradiction|discriminate].
Qed.

End HookFacts.

Lemma timers_pages (Result : Type) (pages rest : list (Response Result))
    (st : State Result) :
  Forall (@has_next Result) pages ->
  timers (pages ++ rest) st
  = repeat 2000 (List.length pages)
    ++ timers rest
         {| allResults := allResults st
                          ++ List.concat (map (@results Result) pages);
            promise := promise st;
            delays := delays st + List.length pages |}.
Proof.
  intros H. revert st. induction H as [|p pages [Hs Hp] _ IH]; intros st.
  - simpl. rewrite app_nil_r, Nat.add_0_r. now destruct st.
  - cbn [app timers]. unfold handleResults. rewrite Hs, Hp.
    rewrite IH. cbn [allResults promise delays map List.concat List.length repeat app].
    now rewrite <- app_assoc, Nat.add_succ_r.
Qed.

(** X23: when every page is OK and only the last one announces no next
    page, [fetchAllPages] resolves with the results of all pages in order, and
    the timers it has set are one of 2000 ms for each page but the last:
    it waits two seconds between two pages and not after the last. *)
Theorem all_pages_are_collected
    (Result : Type) (pages : list (Response Result))
    (last : Response Result) (rest : list (Response Result)) :
  Forall (@has_next Result) pages ->
  status last = OK ->
  pagination last <> Some {| hasNextPage := true |} ->
  fetchAllPages (pages ++ last :: rest)
  = Fulfilled (List.concat (map (@results Result) (pages ++ [last]))) /\
  timers (pages ++ last :: rest) (initial Result)
  = repeat 2000 (List.length pages) /\
  delays (deliver (pages ++ last :: rest) (initial Result))
  = List.length pages.
Proof.
  intros H Hs Hp. unfold fetchAllPages.
  rewrite (deliver_pages (last :: rest) (initial Result) H).
  rewrite (timers_pages (last :: rest) (initial Result) H).
  cbn [deliver timers].
  unfold handleResults. rewrite Hs.
  rewrite map_app, concat_app. cbn [map List.concat]. rewrite app_nil_r.
  destruct (pagination last) as [[[|]]|]; [contradiction| | ];
    rewrite app_nil_r; repeat split.
Qed.

Lemma all_pages_are_collected_witness :
  fetchAllPages
    ([ {| results := [1%positive; 2%positive]; status := OK;
          pagination := Some {| hasNextPage := true |} |};
       {| results := [3%positive]; status := OK;
          pagination := Some {| hasNextPage := true |} |} ]
     ++ {| results := [4%positive]; status := OK;
           pagination := Some {| hasNextPage := false |} |} :: [])
  = Fulfilled
      (List.concat
         (map (@results positive)
            ([ {| results := [1%positive; 2%positive]; status := OK;
                  pagination := Some {| hasNextPage := true |} |};
               {| results := [3%positive]; status := OK;
                  pagination := Some {| hasNextPage := true |} |} ]
             ++ [ {| results := [4%positive]; status := OK;
                     pagination := Some {| hasNextPage := false |} |} ])))
  /\
  timers
    ([ {| results := [1%positive; 2%positive]; status := OK;
          pagination := Some {| hasNextPage := true |} |};
       {| results := [3%positive]; status := OK;
          pagination := Some {| hasNextPage := true |} |} ]
     ++ {| results := [4%positive]; status := OK;
           pagination := Some {| hasNextPage := false |} |} :: [])
    (initial positive)
  = repeat 2000 2
  /\
  delays
    (deliver
       ([ {| results := [1%positive; 2%positive]; status := OK;
             pagination := Some {| hasNextPage := true |} |};
          {| results := [3%positive]; status := OK;
             pagination := Some {| hasNextPage := true |} |} ]
        ++ {| results := [4%positive]; status := OK;
              pagination := Some {| hasNextPage := false |} |} :: [])
       (initial positive))
  = 2.
Proof.
  apply (@all_pages_are_collected positive
    [ {| results := [1%positive; 2%positive]; status := OK;
         pagination := Some {| hasNextPage := true |} |};
      {| results := [3%positive]; status := OK;
         pagination := Some {| hasNextPage := true |} |} ]
    {| results := [4%positive]; status := OK;
       pagination := Some {| hasNextPage := false |} |} []).
  - repeat constructor.
  - reflexivity.
  - discriminate.
Defined.

(** X24: [fetchAllPages] has no timeout of its own: when the service
    stops answering after pages that all announced a next page, the promise
    is never settled, whatever was accumulated. *)
Theorem silent_service_leaves_promise_pending
    (Result : Type) (pages : list (Response Result)) :
  Forall (@has_next Result) pages ->
  fetchAllPages pages = Pending Result.
Proof.
  intros H. unfold fetchAllPages.
  rewrite <- (app_nil_r pages).
  rewrite (deliver_pages [] (initial Result) H). reflexivity.
Qed.

Lemma silent_service_leaves_promise_pending_witness :
  fetchAllPages
    [ {| results := [1%positive; 2%positive]; status := OK;
         pagination := Some {| hasNextPage := true |} |} ]
  = Pending positive.
Proof.
  apply (@silent_service_leaves_promise_pending positive).
  repeat constructor.
Defined.

(** X25: a query that is empty or all whitespace only sets the error
    [Please enter a search query]: the results, the loading flag and the raw
    count stay as they were, and the service is not asked. *)
Theorem blank_query_only_sets_error
    (loaded : bool) (service : Hook.Service) (query : jsstring)
    (st : Hook.State) :
  forallb is_space query = true ->
  Hook.searchPlaces loaded service query st
  = {| Hook.results := Hook.results st;
       Hook.loading := Hook.loading st;
       Hook.error := Some (lit "Please enter a search query");
       Hook.rawResultsCount := Hook.rawResultsCount st |}.
Proof.
  intros H. apply trim_blank in H. unfold Hook.searchPlaces. now rewrite H.
Qed.

(** X26: with a query that is not blank and the Maps API not loaded, the
    search ends at once: the results are cleared, loading is off, the error
    says that the API is not loaded, and the raw count keeps its old value. *)
Theorem search_without_api
    (service : Hook.Service) (query : jsstring) (st : Hook.State) :
  forallb is_space query = false ->
  Hook.searchPlaces false service query st
  = {| Hook.results := [];
       Hook.loading := false;
       Hook.error :=
         Some (lit "Google Maps API not loaded. Please check your API key.");
       Hook.rawResultsCount := Hook.rawResultsCount st |}.
Proof.
  intros H. apply not_blank in H. unfold Hook.searchPlaces. now rewrite H.
Qed.

(** X27: when a page comes back with a status other than OK and
    ZERO_RESULTS, after any number of pages that announced a next one, the
    search ends with no results, loading off and the error
    [Places API Error: <status>]; what earlier pages returned is dropped and
    the raw count keeps its old value. *)
Theorem search_page_error
    (service : Hook.Service) (query : jsstring) (st : Hook.State)
    (before : list (Response Hook.SearchResult))
    (page : Response Hook.SearchResult)
    (rest : list (Response Hook.SearchResult)) (code : jsstring) :
  forallb is_space query = false ->
  Hook.pages service = before ++ page :: rest ->
  Forall (@has_next Hook.SearchResult) before ->
  status page = OtherStatus code ->
  Hook.searchPlaces true service query st
  = {| Hook.results := [];
       Hook.loading := false;
       Hook.error := Some (lit "Places API Error: " ++ code);
       Hook.rawResultsCount := Hook.rawResultsCount st |}.
Proof.
  intros Hq Hpages Hb Hs. apply not_blank in Hq.
  unfold Hook.searchPlaces, Hook.trySearch, Hook.awaitPages, fetchAllPages.
  rewrite Hq, Hpages.
  rewrite (deliver_pages (page :: rest) (initial Hook.SearchResult) Hb).
  cbn [deliver]. rewrite (handleResults_other _ _ Hs). reflexivity.
Qed.

Lemma blank_query_only_sets_error_witness :
  Hook.searchPlaces true one_page_service (lit "   ") idle
  = {| Hook.results := Hook.results idle;
       Hook.loading := Hook.loading idle;
       Hook.error := Some (lit "Please enter a search query");
       Hook.rawResultsCount := Hook.rawResultsCount idle |}.
Proof.
  apply (@blank_query_only_sets_error true one_page_service (lit "   ") idle).
  reflexivity.
Defined.

Lemma search_without_api_witness :
  Hook.searchPlaces false one_page_service (lit "bakeries in Colombo") idle
  = {| Hook.results := [];
       Hook.loading := false;
       Hook.error :=
         Some (lit "Google Maps API not loaded. Please check your API key.");
       Hook.rawResultsCount := Hook.rawResultsCount idle |}.
Proof.
  apply (@search_without_api one_page_service (lit "bakeries in Colombo") idle).
  reflexivity.
Defined.

Lemma search_page_error_witness :
  Hook.searchPlaces true refusing_service (lit "bakeries in Colombo") idle
  = {| Hook.results := [];
       Hook.loading := false;
       Hook.error := Some (lit "Places API Error: " ++ lit "OVER_QUERY_LIMIT");
       Hook.rawResultsCount := Hook.rawResultsCount idle |}.
Proof.
  apply (@search_page_error refusing_service (lit "bakeries in Colombo") idle
           [ {| results := [ {| Hook.place_id := Some (lit "a") |} ];
                status := OK;
                pagination := Some {| hasNextPage := true |} |} ]
           {| results := [];
              status := OtherStatus (lit "OVER_QUERY_LIMIT");
              pagination := None |}
           [] (lit "OVER_QUERY_LIMIT")).
  - reflexivity.
  - reflexivity.
  - repeat constructor.
  - reflexivity.
Defined.

Section SearchFacts.

Lemma lead_facts (places : Arg) (lead : Lead.t) :
  In lead (filterSuitableLeads places) ->
  truthy (Lead.websiteUri lead) = false /\ counted lead /\
  exists ds, List.length ds = 8 /\ forallb is_digit ds = true
             /\ Lead.formattedWhatsapp lead = lit "947" ++ ds.
Proof.
  intros H. apply In_filterSuitableLeads in H.
  destruct H as (place & _ & Hs & ->).
  pose proof (count_of_suitable place Hs) as Hc.
  apply suitable_spec in Hs. destruct Hs as (_ & Hw & _ & Hv).
  split; [exact Hw|]. split; [exact Hc|].
  destruct (selectedPhone place) as [phone|] eqn:Hsel; [|discriminate].
  destruct (format_of_valid phone Hv) as (ds & Hl & Hd & Hf).
  exists ds. split; [assumption|]. split; [assumption|].
  simpl. fold (selectedPhone place). now rewrite Hsel.
Qed.


End SearchFacts.

(** X28: after a search with a query that is not blank, whatever the
    service did, every lead in the results has no website, at least 10
    reviews and a [formattedWhatsapp] of [947] and eight digits; and when
    there are results, there is no error, loading is off, and the raw count
    is at least the number of results. *)
Theorem search_results_invariant
    (loaded : bool) (service : Hook.Service) (query : jsstring)
    (st st' : Hook.State) :
  forallb is_space query = false ->
  st' = Hook.searchPlaces loaded service query st ->
  (forall lead, In lead (Hook.results st') ->
     truthy (Lead.websiteUri lead) = false /\ counted lead /\
     exists ds, List.length ds = 8 /\ forallb is_digit ds = true
                /\ Lead.formattedWhatsapp lead = lit "947" ++ ds) /\
  (Hook.results st' <> [] ->
   Hook.error st' = None /\ Hook.loading st' = false /\
   List.length (Hook.results st') <= Hook.rawResultsCount st').
Proof.
  intros Hq ->. apply not_blank in Hq. unfold Hook.searchPlaces. rewrite Hq.
  cbv zeta.
  destruct (Hook.trySearch loaded service _) as [st1|e|] eqn:E.
  - destruct (trySearch_resolved _ _ _ E)
      as (rs & valid & _ & _ & Hres & Hraw & _ & Herr & _).
    cbn [Hook.results Hook.error Hook.loading Hook.rawResultsCount
         Hook.setLoading]. split.
    + intros lead Hin. rewrite Hres in Hin. exact (lead_facts _ _ Hin).
    + intros Hne. split; [exact (Herr Hne)|]. split; [reflexivity|].
      rewrite Hres, Hraw. apply leads_length.
  - split; [intros lead []|]. intros H. now contradiction H.
  - split; [intros lead []|]. intros H. now contradiction H.
Qed.

Lemma search_results_invariant_witness :
  (forall lead,
     In lead (Hook.results
                (Hook.searchPlaces true one_page_service
                   (lit "bakeries in Colombo") idle)) ->
     truthy (Lead.websiteUri lead) = false /\ counted lead /\
     exists ds, List.length ds = 8 /\ forallb is_digit ds = true
                /\ Lead.formattedWhatsapp lead = lit "947" ++ ds) /\
  (Hook.results
     (Hook.searchPlaces true one_page_service (lit "bakeries in Colombo") idle)
   <> [] ->
   Hook.error
     (Hook.searchPlaces true one_page_service (lit "bakeries in Colombo") idle)
   = None /\
   Hook.loading
     (Hook.searchPlaces true one_page_service (lit "bakeries in Colombo") idle)
   = false /\
   List.length
     (Hook.results
        (Hook.searchPlaces true one_page_service (lit "bakeries in Colombo")
           idle))
   <= Hook.rawResultsCount
        (Hook.searchPlaces true one_page_service (lit "bakeries in Colombo")
           idle)).
Proof.
  apply (@search_results_invariant true one_page_service
           (lit "bakeries in Colombo") idle).
  - reflexivity.
  - reflexivity.
Defined.



Section SilentService.

Lemma lookups_never_throw (service : Hook.Service)
    (rs : list Hook.SearchResult) (e : Error) :
  Hook.all (map (fun place => Hook.getPlaceDetails service
                                (Hook.place_id place)) rs)
  <> Hook.Thrown e.
Proof.
  induction rs as [|r rs IH]; [discriminate|]. cbn [map Hook.all].
  unfold Hook.getPlaceDetails at 1.
  destruct (Hook.details service (Hook.place_id r)) as [[[d|] stt]|];
    [destruct stt| |];
    destruct (Hook.all _) as [l|e'|]; try discriminate;
    intros [= ->]; now apply IH.
Qed.

Lemma unanswered_lookup_blocks (service : Hook.Service)
    (rs : list Hook.SearchResult) (r : Hook.SearchResult) :
  In r rs -> Hook.details service (Hook.place_id r) = None ->
  Hook.all (map (fun place => Hook.getPlaceDetails service
                                (Hook.place_id place)) rs)
  = Hook.Never.
Proof.
  intros Hin Hr. induction rs as [|r0 rs IH]; [destruct Hin|].
  cbn [map Hook.all].
  pose proof (@lookups_never_throw service rs) as Hnt.
  destruct Hin as [-> | Hin].
  - unfold Hook.getPlaceDetails at 1. rewrite Hr.
    destruct (Hook.all _) as [l|e'|]; try reflexivity.
    now contradiction (Hnt e').
  - rewrite (IH Hin).
    destruct (Hook.getPlaceDetails service (Hook.place_id r0)) eqn:E;
      try reflexivity.
    unfold Hook.getPlaceDetails in E.
    destruct (Hook.details service (Hook.place_id r0)) as [[[d|] stt]|];
      [destruct stt| |]; discriminate E.
Qed.

End SilentService.

(** X30: the hook has no timeout either: with a query that is not blank,
    when the service stops answering after pages that announced a next page,
    or leaves one detail lookup unanswered, the hook stays loading, with the
    results cleared and no error. *)
Theorem search_waits_for_silent_service
    (service : Hook.Service) (query : jsstring) (st : Hook.State) :
  forallb is_space query = false ->
  Forall (@has_next Hook.SearchResult) (Hook.pages service)
  \/ (exists allResults r,
        fetchAllPages (Hook.pages service) = Fulfilled allResults /\
        In r allResults /\
        Hook.details service (Hook.place_id r) = None) ->
  Hook.searchPlaces true service query st
  = {| Hook.results := [];
       Hook.loading := true;
       Hook.error := None;
       Hook.rawResultsCount := Hook.rawResultsCount st |}.
Proof.
  intros Hq H. apply not_blank in Hq.
  unfold Hook.searchPlaces, Hook.trySearch, Hook.awaitPages.
  rewrite Hq. cbn [negb].
  destruct H as [H | (rs & r & Hpages & Hin & Hr)].
  - unfold fetchAllPages. rewrite <- (app_nil_r (Hook.pages service)).
    rewrite (deliver_pages [] (initial Hook.SearchResult) H). reflexivity.
  - rewrite Hpages, (unanswered_lookup_blocks service rs r Hin Hr).
    reflexivity.
Qed.

Lemma search_waits_for_silent_service_witness :
  Hook.searchPlaces true silent_service (lit "bakeries in Colombo") idle
  = {| Hook.results := [];
       Hook.loading := true;
       Hook.error := None;
       Hook.rawResultsCount := Hook.rawResultsCount idle |}.
Proof.
  apply (@search_waits_for_silent_service silent_service
           (lit "bakeries in Colombo") idle).
  - reflexivity.
  - left. repeat constructor.
Defined.

(** ** The functions on sample numbers *)

Example accepts_spaced_local :
  isValidSriLankanMobile (Some (lit "077 123 4567")) = true.
Proof. reflexivity. Qed.

Example accepts_international :
  isValidSriLankanMobile (Some (lit "+94 77 123 4567")) = true.
Proof. reflexivity. Qed.

Example rejects_landline :
  isValidSriLankanMobile (Some (lit "011 234 5678")) = false.
Proof. reflexivity. Qed.

Example whatsapp_of_local :
  formatPhoneForWhatsApp (Some (lit "077 123 4567")) = lit "94771234567".
Proof. reflexivity. Qed.

Example whatsapp_of_nothing : formatPhoneForWhatsApp None = [].
Proof. reflexivity. Qed.

Example display_of_local :
  formatPhoneForDisplay (Some (lit "0771234567")) = lit "077 123 4567".
Proof. reflexivity. Qed.

Example display_of_international :
  formatPhoneForDisplay (Some (lit "+94 77 123 4567")) = lit "+94 77 123 4567".
Proof. reflexivity. Qed.

(** The end-to-end scenario of the design document: of three places, only
    the first is returned, Hot, with the canonical number. *)
Example qualify_scenario :
  let place count rating website phone :=
    {| Place.id := None; Place.placeId := None; Place.displayName := None;
       Place.rating := Some rating; Place.userRatingCount := Some count;
       Place.nationalPhoneNumber := Some (lit phone);
       Place.internationalPhoneNumber := None;
       Place.websiteUri := website;
       Place.businessStatus := Some (lit "OPERATIONAL");
       Place.photos := None; Place.types := None;
       Place.formattedAddress := None; Place.location := None |} in
  map (fun lead => (Lead.userRatingCount lead, Lead.leadScore lead,
                    Lead.formattedWhatsapp lead))
      (filterSuitableLeads
         (Array [ place 120%Z (21 # 5)%Q None "0771234567"%string;
                  place 5%Z (49 # 10)%Q None "0779999999"%string;
                  place 80%Z (7 # 2)%Q (Some (lit "http://x.com")) "0771111111"%string ]))
  = [(Some 120%Z, Hot, lit "94771234567")].
Proof. reflexivity. Qed.
